(** * Global flux interface of ARMI: a shallow embedding

    This development embeds the parts of
    [armi/physics/neutronics/globalFlux/globalFluxInterface.py] that carry
    the behaviour of the flux-solve orchestration and of the dose engine:

    - [computeDpaRate] and [calcReactionRates] (module-level functions),
    - [GlobalFluxInterface.checkEnergyBalance],
    - [GlobalFluxExecuter._performGeometryTransformations],
      [GlobalFluxExecuter._undoGeometryTransformations] and
      [GlobalFluxExecuter.edgeAssembliesAreNeeded],
    - [GlobalFluxResultMapper.getBurnupPeakingFactor] and
      [DoseResultsMapper.updateFluenceAndDpa].

    Python exceptions are values of [exn]; a call returns a [result].
    Numbers are kept behind the interface [Num], with two instances:
    IEEE binary64 (what the interpreter computes with) and the canonical
    rationals [Qc] (the arithmetic of the formulas, without rounding). *)

From Stdlib Require Import Floats QArith Qcanon Qcabs.
From stdpp Require Import gmap strings list functions.

Set Default Proof Using "Type".
(* Decimal literals denote the nearest binary64 value, as in Python. *)
Set Warnings "-inexact-float".

(** ** Exceptions, results and the run log *)

Inductive exn : Type :=
  | RuntimeError
  | ValueError
  | IndexError
  | KeyError
  | TypeError
  | AttributeError
  | ZeroDivisionError
  | ExternalError (origin : string).

Inductive result (A : Type) : Type :=
  | Ok (a : A)
  | Raise (e : exn).

Arguments Ok {A} a.
Arguments Raise {A} e.

Definition rbind {A B : Type} (c : result A) (k : A -> result B) : result B :=
  match c with
  | Ok a => k a
  | Raise e => Raise e
  end.

Notation "'let?' x ':=' c 'in' k" := (rbind c (fun x => k))
  (at level 10, x binder, c at level 100, k at level 200).

(** Methods that mutate their object are state transformers that may
    raise; the state reached at the raise is kept. *)
Definition action (S A : Type) : Type := S -> S * result A.

Definition pure {S A : Type} (a : A) : action S A := fun s => (s, Ok a).

Definition raise {S A : Type} (e : exn) : action S A := fun s => (s, Raise e).

Definition bind {S A B : Type} (c : action S A) (k : A -> action S B) : action S B :=
  fun s =>
    match c s with
    | (s', Ok a) => k a s'
    | (s', Raise e) => (s', Raise e)
    end.

Definition getState {S : Type} : action S S := fun s => (s, Ok s).

Definition modify {S : Type} (f : S -> S) : action S unit := fun s => (f s, Ok tt).

Definition liftResult {S A : Type} (c : result A) : action S A := fun s => (s, c).

Notation "'let*' x ':=' c 'in' k" := (bind c (fun x => k))
  (at level 10, x binder, c at level 100, k at level 200).

(** A record of [runLog]: the level and the text (or label) of the message. *)
Inductive logRecord : Type :=
  | LogWarning (text : string)
  | LogInfo (text : string)
  | LogExtra (text : string).

(** ** The numeric interface

    [truthy x] is Python's [bool(x)] on a float ([x != 0.0]); [pydiv] is
    Python's [/] on floats, which raises on a zero divisor. Divisions by
    the non-zero unit constants use [ndiv] directly. *)

Class Num (F : Type) : Type := {
  zero : F;
  one : F;
  two : F;
  nadd : F -> F -> F;
  nsub : F -> F -> F;
  nmul : F -> F -> F;
  ndiv : F -> F -> F;
  nabs : F -> F;
  nltb : F -> F -> bool;
  nleb : F -> F -> bool;
  neqb : F -> F -> bool;
  nisinf : F -> bool;
  (** [units.CM2_PER_BARN], [units.WATTS_PER_MW], [units.SECONDS_PER_DAY] *)
  CM2_PER_BARN : F;
  WATTS_PER_MW : F;
  SECONDS_PER_DAY : F;
  (** the literal [-1.0e-10] of [computeDpaRate] *)
  NEGATIVE_DPA_LIMIT : F;
  (** [GlobalFluxInterface._ENERGY_BALANCE_REL_TOL = 1e-5] *)
  ENERGY_BALANCE_REL_TOL : F
}.

Declare Scope num_scope.
Delimit Scope num_scope with num.
Infix "+" := nadd : num_scope.
Infix "-" := nsub : num_scope.
Infix "*" := nmul : num_scope.
Infix "<?" := nltb : num_scope.
Infix "<=?" := nleb : num_scope.
Infix "==?" := neqb (at level 70) : num_scope.

Definition truthy {F} `{Num F} (x : F) : bool := negb (neqb x zero).

Definition pydiv {F} `{Num F} (x y : F) : result F :=
  if neqb y zero then Raise ZeroDivisionError else Ok (ndiv x y).

(** *** IEEE binary64: the floats of the interpreter *)

#[export] Instance float_num : Num float := {|
  zero := 0%float;
  one := 1%float;
  two := 2%float;
  nadd := PrimFloat.add;
  nsub := PrimFloat.sub;
  nmul := PrimFloat.mul;
  ndiv := PrimFloat.div;
  nabs := PrimFloat.abs;
  nltb := PrimFloat.ltb;
  nleb := PrimFloat.leb;
  neqb := PrimFloat.eqb;
  nisinf := fun x => PrimFloat.eqb (PrimFloat.abs x) infinity;
  CM2_PER_BARN := 1.0e-24%float;
  WATTS_PER_MW := 1.0e6%float;
  SECONDS_PER_DAY := 86400.0%float;
  NEGATIVE_DPA_LIMIT := (-1.0e-10)%float;
  ENERGY_BALANCE_REL_TOL := 1e-5%float
|}.

(** *** Canonical rationals: the arithmetic without rounding *)

Definition Qc_of_frac (n : Z) (d : positive) : Qc := Q2Qc (n # d).

#[export] Instance Qc_num : Num Qc := {|
  zero := Qc_of_frac 0 1;
  one := Qc_of_frac 1 1;
  two := Qc_of_frac 2 1;
  nadd := Qcplus;
  nsub := Qcminus;
  nmul := Qcmult;
  ndiv := Qcdiv;
  nabs := Qcabs;
  nltb := fun x y => bool_decide (x < y)%Qc;
  nleb := fun x y => bool_decide (x <= y)%Qc;
  neqb := fun x y => bool_decide (x = y);
  nisinf := fun _ => false;
  CM2_PER_BARN := Qc_of_frac 1 1000000000000000000000000;
  WATTS_PER_MW := Qc_of_frac 1000000 1;
  SECONDS_PER_DAY := Qc_of_frac 86400 1;
  NEGATIVE_DPA_LIMIT := Qc_of_frac (-1) 10000000000;
  ENERGY_BALANCE_REL_TOL := Qc_of_frac 1 100000
|}.

(** ** [computeDpaRate]

    The function logs through [runLog.warning]; the records it emits are
    returned with the result, oldest first. *)

Section ComputeDpaRate.
Context {F : Type} `{Num F}.
Local Open Scope num_scope.

(** [for flux, barns in zip(mgFlux, dpaXs): displacements += flux * barns] *)
Fixpoint accumulateDisplacements (displacements : F) (mgFlux dpaXs : list F) : F :=
  match mgFlux, dpaXs with
  | flux :: mgFlux', barns :: dpaXs' =>
      accumulateDisplacements (displacements + flux * barns) mgFlux' dpaXs'
  | _, _ => displacements
  end.

Definition warnIncompatibleLengths : logRecord :=
  LogWarning "Multigroup flux is incompatible with dpa cross section; dpa rate will be set do 0.0".

Definition warnNegativeDpaPerSecond : logRecord :=
  LogWarning "negativeDpaPerSecond".

(** The part of [computeDpaRate] that follows
    [dpaPerSecond = displacements * units.CM2_PER_BARN]. *)
Definition checkDpaPerSecond (dpaPerSecond : F) : list logRecord * result F :=
  if dpaPerSecond <? zero then
    if dpaPerSecond <? NEGATIVE_DPA_LIMIT then
      ([warnNegativeDpaPerSecond], Raise RuntimeError)
    else
      ([warnNegativeDpaPerSecond], Ok zero)
  else
    ([], Ok dpaPerSecond).

Definition computeDpaRate (mgFlux dpaXs : list F) : list logRecord * result F :=
  let displacements := zero in
  if negb (Nat.eqb (length mgFlux) (length dpaXs)) then
    ([warnIncompatibleLengths], Ok displacements)
  else
    let displacements := accumulateDisplacements displacements mgFlux dpaXs in
    let dpaPerSecond := displacements * CM2_PER_BARN in
    checkDpaPerSecond dpaPerSecond.

(** The sum over the groups, as the formula has it:
    [sum_g flux[g] * dpaXs[g]], without an accumulator. *)
Fixpoint sumOverGroups (mgFlux dpaXs : list F) : F :=
  match mgFlux, dpaXs with
  | flux :: mgFlux', barns :: dpaXs' =>
      flux * barns + sumOverGroups mgFlux' dpaXs'
  | _, _ => zero
  end.

(** The value [dpaPerSecond] that [computeDpaRate] computes from
    vectors of one length, before it checks the sign. *)
Definition computedDpaPerSecond (mgFlux dpaXs : list F) : F :=
  accumulateDisplacements zero mgFlux dpaXs * CM2_PER_BARN.

End ComputeDpaRate.

(** The values of the examples, as exact rationals *)
Definition q_1e14 : Qc := Qc_of_frac 100000000000000 1.
Definition q_2e14 : Qc := Qc_of_frac 200000000000000 1.
Definition q_10 : Qc := Qc_of_frac 10 1.
Definition q_20 : Qc := Qc_of_frac 20 1.
Definition q_5em9 : Qc := Qc_of_frac 5 1000000000.


(** ** [calcReactionRates]

    [RX_ABS_MICRO_LABELS] names the absorption channels of a nuclide's
    microscopic cross sections; [RX_PARAM_NAMES] names the totals. *)

Inductive RxLabel : Type := nGamma | fission | nalph | np | nd | nt.

Definition RX_ABS_MICRO_LABELS : list RxLabel := [nGamma; fission; nalph; np; nd; nt].

Definition RX_PARAM_NAMES : list string :=
  ["rateCap"; "rateFis"; "rateProdN2n"; "rateProdFis"; "rateAbs"].

Definition isFission (name : RxLabel) : bool :=
  match name with fission => true | _ => false end.

Section CalcReactionRates.
Context {F : Type} `{Num F}.
Local Open Scope num_scope.

#[export] Instance F_inhabited : Inhabited F := populate zero.

(** [nucMc.micros] of a library nuclide: one group vector per label,
    the n2n vector and the neutrons per fission. *)
Record Micros : Type := {
  micros_xs : RxLabel -> list F;
  micros_n2n : list F;
  micros_neutronsPerFission : list F
}.

(** The cross-section library, through [lib.getNuclide(nucName, suffix)]. *)
Definition XSLibrary : Type := string -> string -> result Micros.

(** What [calcReactionRates] reads from [obj], and its parameters [obj.p]. *)
Record RxObject : Type := {
  getNumberDensities : list (string * F);
  getMicroSuffix : string;
  getMgFlux : list F;
  fuelAreaFrac : F;   (* obj.getComponentAreaFrac(Flags.FUEL) *)
  p : gmap string F
}.

Definition setParams (obj : RxObject) (p' : gmap string F) : RxObject :=
  {| getNumberDensities := getNumberDensities obj;
     getMicroSuffix := getMicroSuffix obj;
     getMgFlux := getMgFlux obj;
     fuelAreaFrac := fuelAreaFrac obj;
     p := p' |}.

(** [d[k] += v] on a dictionary that holds the key *)
Definition addTo (k : string) (v : F) (d : gmap string F) : gmap string F :=
  <[k := (d !!! k) + v]> d.

(** [rate = {}; for simple in RX_PARAM_NAMES: rate[simple] = 0.0] *)
Definition zeroRates : gmap string F :=
  foldl (fun d simple => <[simple := zero]> d) ∅ RX_PARAM_NAMES.

(** The body of
    [for g, (groupFlux, xs) in enumerate(zip(mgFlux, micros[name]))],
    from group [g] on. *)
Fixpoint groupLoop (name : RxLabel) (numberDensity keff : F)
    (neutronsPerFission : list F) (g : nat) (mgFlux xss : list F)
    (nucrate : gmap string F) : result (gmap string F) :=
  match mgFlux, xss with
  | groupFlux :: mgFlux', xs :: xss' =>
      let dphi := numberDensity * groupFlux in
      let nucrate := addTo "rateAbs" (dphi * xs) nucrate in
      let? nucrate :=
        if negb (isFission name) then
          Ok (addTo "rateCap" (dphi * xs) nucrate)
        else
          let nucrate := addTo "rateFis" (dphi * xs) nucrate in
          match neutronsPerFission !! g with
          | None => Raise IndexError
          | Some nu =>
              let? prod := pydiv (dphi * xs * nu) keff in
              Ok (addTo "rateProdFis" prod nucrate)
          end
      in groupLoop name numberDensity keff neutronsPerFission (S g) mgFlux' xss' nucrate
  | _, _ => Ok nucrate
  end.

(** [for name in RX_ABS_MICRO_LABELS: ...] *)
Fixpoint labelLoop (names : list RxLabel) (numberDensity keff : F)
    (mc : Micros) (mgFlux : list F) (nucrate : gmap string F)
    : result (gmap string F) :=
  match names with
  | [] => Ok nucrate
  | name :: names' =>
      let? nucrate :=
        groupLoop name numberDensity keff (micros_neutronsPerFission mc) 0
          mgFlux (micros_xs mc name) nucrate
      in labelLoop names' numberDensity keff mc mgFlux nucrate
  end.

(** [for groupFlux, n2nXs in zip(mgFlux, micros.n2n): ...] *)
Fixpoint n2nLoop (numberDensity : F) (mgFlux n2n : list F)
    (nucrate : gmap string F) : gmap string F :=
  match mgFlux, n2n with
  | groupFlux :: mgFlux', n2nXs :: n2n' =>
      let dphi := numberDensity * groupFlux in
      n2nLoop numberDensity mgFlux' n2n'
        (addTo "rateProdN2n" (two * dphi * n2nXs) nucrate)
  | _, _ => nucrate
  end.

(** [for simple in RX_PARAM_NAMES: if nucrate[simple]: rate[simple] += nucrate[simple]] *)
Definition addNuclideRates (nucrate rate : gmap string F) : gmap string F :=
  foldl (fun rate simple =>
           if truthy (nucrate !!! simple)
           then addTo simple (nucrate !!! simple) rate
           else rate)
        rate RX_PARAM_NAMES.

(** One turn of [for nucName, numberDensity in numberDensities.items()]. *)
Definition nuclideStep (obj : RxObject) (keff : F) (lib : XSLibrary)
    (rate : gmap string F) (item : string * F) : result (gmap string F) :=
  let '(nucName, numberDensity) := item in
  if numberDensity ==? zero then Ok rate
  else
    let nucrate := zeroRates in
    let? nucMc := lib nucName (getMicroSuffix obj) in
    let mgFlux := getMgFlux obj in
    let? nucrate :=
      labelLoop RX_ABS_MICRO_LABELS numberDensity keff nucMc mgFlux nucrate in
    let nucrate := n2nLoop numberDensity mgFlux (micros_n2n nucMc) nucrate in
    Ok (addNuclideRates nucrate rate).

Fixpoint nuclideLoop (obj : RxObject) (keff : F) (lib : XSLibrary)
    (items : list (string * F)) (rate : gmap string F)
    : result (gmap string F) :=
  match items with
  | [] => Ok rate
  | item :: items' =>
      let? rate := nuclideStep obj keff lib rate item in
      nuclideLoop obj keff lib items' rate
  end.

(** [for paramName, val in rate.items(): obj.p[paramName] = val] *)
Definition writeRates (rate : gmap string F) (params : gmap string F)
    : gmap string F :=
  foldl (fun params paramName => <[paramName := rate !!! paramName]> params)
        params RX_PARAM_NAMES.

(** [obj] is mutated in place: the object reached is returned with the
    outcome of the call. *)
Definition calcReactionRates (keff : F) (lib : XSLibrary) : action RxObject unit :=
  fun obj =>
    match nuclideLoop obj keff lib (getNumberDensities obj) zeroRates with
    | Raise e => (obj, Raise e)
    | Ok rate =>
        let obj := setParams obj (writeRates rate (p obj)) in
        let vFuel :=
          if zero <? (rate !!! "rateFis") then fuelAreaFrac obj else one in
        match pydiv (rate !!! "rateFis") vFuel with
        | Raise e => (obj, Raise e)
        | Ok fisDens =>
            let obj := setParams obj (<["fisDens" := fisDens]> (p obj)) in
            (setParams obj (<["fisDensHom" := rate !!! "rateFis"]> (p obj)), Ok tt)
        end
    end.

End CalcReactionRates.

Arguments Micros F : clear implicits.
Arguments RxObject F : clear implicits.
Arguments XSLibrary F : clear implicits.

(** ** [GlobalFluxInterface.checkEnergyBalance] *)

Section CheckEnergyBalance.
Context {F : Type} `{Num F}.
Local Open Scope num_scope.

(** Python's [math.isclose(a, b, rel_tol=rel_tol)], with its default
    [abs_tol=0.0]. *)
Definition isclose (a b rel_tol : F) : bool :=
  let abs_tol := zero in
  if a ==? b then true
  else if nisinf a || nisinf b then false
  else
    let diff := nabs (b - a) in
    (diff <=? nabs (rel_tol * b)) || (diff <=? nabs (rel_tol * a))
    || (diff <=? abs_tol).

(** The core as [checkEnergyBalance] sees it: the power of each block,
    assembly by assembly, the power parameter of the core and its power
    multiplier. *)
Record Core : Type := {
  blockPower : list (list F);
  core_power : F;
  powerMultiplier : F
}.

(** Modelled from the spec: [Core.calcTotalParam] is defined in the
    reactor model, outside this file. With ["power"],
    [calcBasedOnFullObj=False] and [generationNum=2] it integrates the
    power of the blocks (second generation) across the core. *)
Definition calcTotalPower (core : Core) : F :=
  foldl (fun tot b => tot + b) zero (concat (blockPower core)).

(** [Core.setPowerIfNecessary] belongs to the reactor model; it may
    assign the power parameter of the core. *)
Variable setPowerIfNecessary : Core -> Core.

Definition checkEnergyBalance : action Core unit :=
  fun core =>
    let powerGenerated := ndiv (calcTotalPower core) WATTS_PER_MW in
    let core := setPowerIfNecessary core in
    match pydiv (ndiv (core_power core) WATTS_PER_MW) (powerMultiplier core) with
    | Raise e => (core, Raise e)
    | Ok specifiedPower =>
        if negb (isclose powerGenerated specifiedPower ENERGY_BALANCE_REL_TOL)
        then (core, Raise ValueError)
        else (core, Ok tt)
    end.

End CheckEnergyBalance.

Arguments Core F : clear implicits.

(** ** [GlobalFluxOptions]: the options the executer reads

    The attributes without default start as [None]; [applyResultsToReactor]
    and [paramsToScaleSubset] come from [executers.ExecutionOptions]. *)

Inductive DomainType : Type :=
  | NULL_DOMAIN | FULL_CORE | THIRD_CORE | QUARTER_CORE | EIGHTH_CORE | SIXTEENTH_CORE.

Inductive BoundaryType : Type :=
  | NO_SYMMETRY | PERIODIC | REFLECTIVE.

Inductive GeomType : Type :=
  | HEX | CARTESIAN | RZT | RZ.

#[export] Instance DomainType_eq_dec : EqDecision DomainType.
Proof. solve_decision. Defined.
#[export] Instance BoundaryType_eq_dec : EqDecision BoundaryType.
Proof. solve_decision. Defined.
#[export] Instance GeomType_eq_dec : EqDecision GeomType.
Proof. solve_decision. Defined.

Record SymmetryType : Type := {
  domain : DomainType;
  boundary : BoundaryType
}.

Record GlobalFluxOptions : Type := {
  kernelName : option string;
  symmetry : option SymmetryType;
  geomType : option GeomType;
  detailedAxialExpansion : option bool;
  hasNonUniformAssems : option bool;
  applyResultsToReactor : bool;
  paramsToScaleSubset : option (list string)
}.

(** Truth value of an [Optional[bool]] *)
Definition optTruthy (b : option bool) : bool := default false b.

(** Python's [sub in s] on strings *)
Definition contains (sub s : string) : bool :=
  match String.index 0 sub s with Some _ => true | None => false end.

(** [GlobalFluxExecuter.edgeAssembliesAreNeeded]: the conjunction is
    evaluated left to right and stops at the first false operand;
    ["FD" in None] and [None.domain] raise. *)
Definition edgeAssembliesAreNeeded (options : GlobalFluxOptions) : result bool :=
  match kernelName options with
  | None => Raise TypeError
  | Some kernel =>
      if negb (contains "FD" kernel) then Ok false
      else
        match symmetry options with
        | None => Raise AttributeError
        | Some sym =>
            if negb (bool_decide (domain sym = THIRD_CORE)) then Ok false
            else if negb (bool_decide (boundary sym = PERIODIC)) then Ok false
            else Ok (bool_decide (geomType options = Some HEX))
        end
  end.

(** ** [GlobalFluxExecuter]: the geometry transformations

    Reactor objects live in a store and are named by references, so that
    [self.r], the reactor of the caller and the [_sourceReactor] of a mesh
    converter may denote one object. [Model] is the content of a reactor
    object (core, assemblies, blocks and their parameters). *)

Abbreviation ReactorRef := nat (only parsing).

(** The converters kept in [self.geomConverters] *)
Inductive GeometryConverter : Type :=
  | UniformMeshConverter (_sourceReactor convReactor : ReactorRef)
  | EdgeAssemblyChanger.

Section GlobalFluxExecuter.
Context {Model Keff : Type}.

Record Executer : Type := {
  reactors : ReactorRef -> Model;   (* the objects of the store *)
  nextRef : ReactorRef;             (* the next fresh reference *)
  r : ReactorRef;                   (* self.r *)
  options : GlobalFluxOptions;      (* self.options *)
  geomConverters : gmap string GeometryConverter   (* self.geomConverters *)
}.

(** [GlobalFluxExecuter.__init__] *)
Definition newExecuter (store : ReactorRef -> Model) (next : ReactorRef)
    (opts : GlobalFluxOptions) (reactor : ReactorRef) : Executer :=
  {| reactors := store; nextRef := next; r := reactor; options := opts;
     geomConverters := ∅ |}.

Definition setReactor (ref : ReactorRef) (self : Executer) : Executer :=
  {| reactors := reactors self; nextRef := nextRef self; r := ref;
     options := options self; geomConverters := geomConverters self |}.

Definition setGeomConverters (cs : gmap string GeometryConverter)
    (self : Executer) : Executer :=
  {| reactors := reactors self; nextRef := nextRef self; r := r self;
     options := options self; geomConverters := cs |}.

Definition setModel (ref : ReactorRef) (m : Model) (self : Executer) : Executer :=
  {| reactors := <[ref := m]> (reactors self); nextRef := nextRef self;
     r := r self; options := options self;
     geomConverters := geomConverters self |}.

Definition allocModel (m : Model) (self : Executer) : Executer :=
  {| reactors := <[nextRef self := m]> (reactors self);
     nextRef := S (nextRef self); r := r self; options := options self;
     geomConverters := geomConverters self |}.

(** The collaborators outside this file. A call that raises leaves the
    reactor it was given as it found it. *)
Variable uniformMeshConvert : GlobalFluxOptions -> Model -> result Model.
  (* uniformMesh.converterFactory(options), then convert(r): the new
     reactor convReactor *)
Variable plotConvertedReactor : Model -> result unit.
Variable addEdgeAssemblies : Model -> result Model.
Variable scaleParamsRelatedToSymmetry : option (list string) -> Model -> result Model.
Variable removeEdgeAssemblies : Model -> result Model.
Variable applyStateToOriginal : Model -> Model -> result Model.
  (* converted reactor, source reactor: the source reactor afterwards *)
Variable solveFlux : GlobalFluxOptions -> Model -> result (Model * Keff).
  (* the solver and the mapping of its results onto the reactor it was
     given, with the eigenvalue of the output *)

(** In-place update of the reactor object behind [ref] *)
Definition updateModel (ref : ReactorRef) (f : Model -> result Model)
    : action Executer unit :=
  fun self =>
    match f (reactors self ref) with
    | Ok m => (setModel ref m self, Ok tt)
    | Raise e => (self, Raise e)
    end.

(** [any(self.geomConverters)]: some key of the dictionary is a
    non-empty string *)
Definition anyKey (cs : gmap string GeometryConverter) : bool :=
  bool_decide (Exists (fun k => k ≠ "") (elements (dom cs))).

Definition _performGeometryTransformations (makePlots : bool)
    : action Executer unit :=
  let* self := getState in
  if anyKey (geomConverters self) then raise RuntimeError
  else
    let neutronicsReactor := r self in
    let* neutronicsReactor :=
      match geomConverters self !! "axial" with
      | Some _ => pure neutronicsReactor
      | None =>
          if optTruthy (detailedAxialExpansion (options self))
             || optTruthy (hasNonUniformAssems (options self))
          then
            let* conv :=
              liftResult (uniformMeshConvert (options self)
                            (reactors self (r self))) in
            let convReactor := nextRef self in
            let* _ := modify (allocModel conv) in
            let* _ :=
              if makePlots then liftResult (plotConvertedReactor conv)
              else pure tt in
            let* _ :=
              modify (fun self =>
                setGeomConverters
                  (<["axial" := UniformMeshConverter (r self) convReactor]>
                     (geomConverters self)) self) in
            pure convReactor
          else pure neutronicsReactor
      end in
    let* needed := liftResult (edgeAssembliesAreNeeded (options self)) in
    let* _ :=
      if needed then
        let* self := getState in
        let converter :=
          default EdgeAssemblyChanger (geomConverters self !! "edgeAssems") in
        match converter with
        | EdgeAssemblyChanger =>
            let* _ := updateModel neutronicsReactor addEdgeAssemblies in
            modify (fun self =>
              setGeomConverters
                (<["edgeAssems" := converter]> (geomConverters self)) self)
        | UniformMeshConverter _ _ => raise AttributeError
        end
      else pure tt in
    modify (setReactor neutronicsReactor).

Definition _undoGeometryTransformations : action Executer unit :=
  let* self := getState in
  let* _ :=
    match geomConverters self !! "edgeAssems" with
    | Some EdgeAssemblyChanger =>
        let* _ :=
          updateModel (r self)
            (scaleParamsRelatedToSymmetry (paramsToScaleSubset (options self))) in
        updateModel (r self) removeEdgeAssemblies
    | Some (UniformMeshConverter _ _) => raise AttributeError
    | None => pure tt
    end in
  let* self := getState in
  let* _ :=
    match geomConverters self !! "axial" with
    | Some (UniformMeshConverter source conv) =>
        let* _ :=
          if applyResultsToReactor (options self)
             || optTruthy (hasNonUniformAssems (options self))
          then updateModel source (applyStateToOriginal (reactors self conv))
          else pure tt in
        (* meshConverter.reset() clears attributes of the converter only *)
        modify (setReactor source)
    | Some EdgeAssemblyChanger => raise AttributeError
    | None => pure tt
    end in
  (* clear the converters in case this function gets called twice *)
  modify (setGeomConverters ∅).

(** Modelled from the spec: [DefaultExecuter.run] is defined in
    [armi/physics/executers.py], outside this file. One run applies the
    geometry transformations, invokes the solver on the reactor the
    executer then works on (its results are written onto that reactor),
    restores the geometry and returns the output, of which the
    eigenvalue is kept. A failure is propagated. *)
Definition run : action Executer Keff :=
  let* _ := _performGeometryTransformations false in
  let* self := getState in
  let* solved := liftResult (solveFlux (options self) (reactors self (r self))) in
  let* _ := modify (setModel (r self) (fst solved)) in
  let* _ := _undoGeometryTransformations in
  pure (snd solved).

End GlobalFluxExecuter.

Arguments Executer Model : clear implicits.

(** ** [DoseResultsMapper]: fluence and dpa over a depletion step

    Blocks are objects named by identifiers; a block list may name one
    block several times. The parameters [b.p] of a block are grouped in
    what [updateFluenceAndDpa] only reads and what it assigns. *)

Abbreviation BlockId := nat (only parsing).

Section DoseResultsMapper.
Context {F : Type} `{Num F}.
Local Open Scope num_scope.

Record BlockFluxParams : Type := {
  flux : F;
  fluxPeak : F;
  fastFluxFr : F;
  detailedDpaRate : F;
  detailedDpaPeakRate : F;
  pointsCornerDpaRate : option (list F);
  pointsEdgeDpaRate : option (list F);
  buRatePeak : F;
  buRate : F;
  percentBu : F
}.

Record BlockDoseParams : Type := {
  residence : F;
  fluence : F;
  fastFluence : F;
  fastFluencePeak : F;
  newDPA : F;
  newDPAPeak : F;
  detailedDpa : F;
  detailedDpaPeak : F;
  detailedDpaThisCycle : F;
  pointsCornerDpa : option (list F);
  pointsEdgeDpa : option (list F);
  dpaPeakFromFluence : F;
  percentBuPeak : F
}.

Record Block : Type := {
  fluxParams : BlockFluxParams;
  doseParams : BlockDoseParams
}.

Definition setDose (d : BlockDoseParams) (b : Block) : Block :=
  {| fluxParams := fluxParams b; doseParams := d |}.

Definition setPointsCornerDpa (v : option (list F)) (d : BlockDoseParams)
    : BlockDoseParams :=
  {| residence := residence d; fluence := fluence d;
     fastFluence := fastFluence d; fastFluencePeak := fastFluencePeak d;
     newDPA := newDPA d; newDPAPeak := newDPAPeak d;
     detailedDpa := detailedDpa d; detailedDpaPeak := detailedDpaPeak d;
     detailedDpaThisCycle := detailedDpaThisCycle d;
     pointsCornerDpa := v; pointsEdgeDpa := pointsEdgeDpa d;
     dpaPeakFromFluence := dpaPeakFromFluence d;
     percentBuPeak := percentBuPeak d |}.

Definition setPointsEdgeDpa (v : option (list F)) (d : BlockDoseParams)
    : BlockDoseParams :=
  {| residence := residence d; fluence := fluence d;
     fastFluence := fastFluence d; fastFluencePeak := fastFluencePeak d;
     newDPA := newDPA d; newDPAPeak := newDPAPeak d;
     detailedDpa := detailedDpa d; detailedDpaPeak := detailedDpaPeak d;
     detailedDpaThisCycle := detailedDpaThisCycle d;
     pointsCornerDpa := pointsCornerDpa d; pointsEdgeDpa := v;
     dpaPeakFromFluence := dpaPeakFromFluence d;
     percentBuPeak := percentBuPeak d |}.

Definition setDpaPeakFromFluence (v : F) (d : BlockDoseParams)
    : BlockDoseParams :=
  {| residence := residence d; fluence := fluence d;
     fastFluence := fastFluence d; fastFluencePeak := fastFluencePeak d;
     newDPA := newDPA d; newDPAPeak := newDPAPeak d;
     detailedDpa := detailedDpa d; detailedDpaPeak := detailedDpaPeak d;
     detailedDpaThisCycle := detailedDpaThisCycle d;
     pointsCornerDpa := pointsCornerDpa d; pointsEdgeDpa := pointsEdgeDpa d;
     dpaPeakFromFluence := v;
     percentBuPeak := percentBuPeak d |}.

Definition setPercentBuPeak (v : F) (d : BlockDoseParams)
    : BlockDoseParams :=
  {| residence := residence d; fluence := fluence d;
     fastFluence := fastFluence d; fastFluencePeak := fastFluencePeak d;
     newDPA := newDPA d; newDPAPeak := newDPAPeak d;
     detailedDpa := detailedDpa d; detailedDpaPeak := detailedDpaPeak d;
     detailedDpaThisCycle := detailedDpaThisCycle d;
     pointsCornerDpa := pointsCornerDpa d; pointsEdgeDpa := pointsEdgeDpa d;
     dpaPeakFromFluence := dpaPeakFromFluence d;
     percentBuPeak := v |}.

(** The reactor as the mapper sees it ([self.r]), with the run log. *)
Record DoseReactor : Type := {
  blocks : BlockId -> Block;          (* the block objects *)
  core_getBlocks : list BlockId;      (* self.r.core.getBlocks() *)
  daysSinceLastMove : list F;         (* a.p.daysSinceLastMove, per assembly *)
  core_p : gmap string F;             (* self.r.core.p *)
  runLog : list logRecord             (* oldest first *)
}.

Definition setBlocks (bs : BlockId -> Block) (rx : DoseReactor) : DoseReactor :=
  {| blocks := bs; core_getBlocks := core_getBlocks rx;
     daysSinceLastMove := daysSinceLastMove rx; core_p := core_p rx;
     runLog := runLog rx |}.

Definition setDaysSinceLastMove (ds : list F) (rx : DoseReactor) : DoseReactor :=
  {| blocks := blocks rx; core_getBlocks := core_getBlocks rx;
     daysSinceLastMove := ds; core_p := core_p rx; runLog := runLog rx |}.

Definition setCoreParams (cp : gmap string F) (rx : DoseReactor) : DoseReactor :=
  {| blocks := blocks rx; core_getBlocks := core_getBlocks rx;
     daysSinceLastMove := daysSinceLastMove rx; core_p := cp;
     runLog := runLog rx |}.

Definition logRecordOf (rec : logRecord) (rx : DoseReactor) : DoseReactor :=
  {| blocks := blocks rx; core_getBlocks := core_getBlocks rx;
     daysSinceLastMove := daysSinceLastMove rx; core_p := core_p rx;
     runLog := runLog rx ++ [rec] |}.

(** Assignment to parameters of the block object [b] *)
Definition modifyDose (b : BlockId) (f : BlockDoseParams -> BlockDoseParams)
    : action DoseReactor unit :=
  modify (fun rx =>
    setBlocks (<[b := setDose (f (doseParams (blocks rx b))) (blocks rx b)]>
                 (blocks rx)) rx).

(** What the mapper takes from its options and settings *)
Variable burnupPeakingFactor : F.     (* self.cs["burnupPeakingFactor"] *)
Variable dpaPerFluence : option F.    (* self.options.dpaPerFluence *)

(** The summaries at the end of [updateFluenceAndDpa] assign parameters
    of the core only; they read the reactor through accessors of the
    reactor model ([getMaxBlockParam], [getElevationsMatchingParamValue],
    [getParamValuesAtZ], ...). Each gives the parameters of the core
    after its call. *)
Variable updateMaxDpaParams : DoseReactor -> result (gmap string F).
Variable updateCycleDoseParams : DoseReactor -> result (gmap string F).
Variable updateLoadpadDose : DoseReactor -> result (gmap string F).

Definition coreSummary (f : DoseReactor -> result (gmap string F))
    : action DoseReactor unit :=
  let* rx := getState in
  let* cp := liftResult (f rx) in
  modify (setCoreParams cp).

(** [GlobalFluxResultMapper.getBurnupPeakingFactor] *)
Definition getBurnupPeakingFactor (b : Block) : result F :=
  let burnupPeakingFactor := burnupPeakingFactor in
  if negb (truthy burnupPeakingFactor) && truthy (fluxPeak (fluxParams b)) then
    pydiv (fluxPeak (fluxParams b)) (flux (fluxParams b))
  else if negb (truthy burnupPeakingFactor) then Ok zero
  else Ok burnupPeakingFactor.

(** The assignments of lines 975 to 988 of the source, in one step *)
Definition accumulateDose (stepTimeInSeconds : F) (fp : BlockFluxParams)
    (d : BlockDoseParams) : BlockDoseParams :=
  let newDPA' := detailedDpaRate fp * stepTimeInSeconds in
  let newDPAPeak' := detailedDpaPeakRate fp * stepTimeInSeconds in
  {| residence := residence d + ndiv stepTimeInSeconds SECONDS_PER_DAY;
     fluence := fluence d + flux fp * stepTimeInSeconds;
     fastFluence :=
       fastFluence d + flux fp * stepTimeInSeconds * fastFluxFr fp;
     fastFluencePeak :=
       fastFluencePeak d + fluxPeak fp * stepTimeInSeconds * fastFluxFr fp;
     newDPA := newDPA';
     newDPAPeak := newDPAPeak';
     detailedDpa := detailedDpa d + newDPA';
     detailedDpaPeak := detailedDpaPeak d + newDPAPeak';
     detailedDpaThisCycle := detailedDpaThisCycle d + newDPA';
     pointsCornerDpa := pointsCornerDpa d;
     pointsEdgeDpa := pointsEdgeDpa d;
     dpaPeakFromFluence := dpaPeakFromFluence d;
     percentBuPeak := percentBuPeak d |}.

(** [numpy.zeros((6,))] *)
Definition zeros6 : list F := replicate 6 zero.

(** [dpa + rate * stepTimeInSeconds] on arrays of one shape; arrays of
    different lengths do not combine. *)
Definition incrementPointDpa (dpa rate : list F) (stepTimeInSeconds : F)
    : result (list F) :=
  if Nat.eqb (length dpa) (length rate)
  then Ok (zip_with nadd dpa (map (fun x => x * stepTimeInSeconds) rate))
  else Raise ValueError.

Definition updatePointDpa
    (getRate : BlockFluxParams -> option (list F))
    (getDpa : BlockDoseParams -> option (list F))
    (setDpa : option (list F) -> BlockDoseParams -> BlockDoseParams)
    (stepTimeInSeconds : F) (b : BlockId) : action DoseReactor unit :=
  let* rx := getState in
  match getRate (fluxParams (blocks rx b)) with
  | None => pure tt
  | Some rate =>
      let* _ :=
        match getDpa (doseParams (blocks rx b)) with
        | None => modifyDose b (setDpa (Some zeros6))
        | Some _ => pure tt
        end in
      let* rx := getState in
      let* dpa :=
        liftResult
          (incrementPointDpa (default [] (getDpa (doseParams (blocks rx b))))
             rate stepTimeInSeconds) in
      modifyDose b (setDpa (Some dpa))
  end.

Definition warnScalingBurnup : logRecord :=
  LogWarning "Scaling burnup by current peaking factor... This assumes peaking factor was constant through shuffling/irradiation history.".

Definition warnNoFluxPeak : logRecord :=
  LogWarning "no fluxPeak parameter on this model. Peak DPA will be equal to average DPA. Perhaps you are not running a nodal approximation.".

(** The burnup peaking at the end of the loop body *)
Definition updatePercentBuPeak (stepTimeInSeconds : F) (b : BlockId)
    : action DoseReactor unit :=
  let* rx := getState in
  let blk := blocks rx b in
  let* peakRate :=
    if truthy (buRatePeak (fluxParams blk)) then
      pure (Some (buRatePeak (fluxParams blk)))
    else if truthy (buRate (fluxParams blk)) then
      let* factor := liftResult (getBurnupPeakingFactor blk) in
      pure (Some (buRate (fluxParams blk) * factor))
    else pure None in
  let scaleBurnup : action DoseReactor unit :=
    let* _ := modify (logRecordOf warnScalingBurnup) in
    let* factor := liftResult (getBurnupPeakingFactor blk) in
    modifyDose b (setPercentBuPeak (percentBu (fluxParams blk) * factor)) in
  match peakRate with
  | Some peakRate' =>
      if truthy peakRate' then
        let peakRatePerSecond := ndiv peakRate' SECONDS_PER_DAY in
        modifyDose b (fun d =>
          setPercentBuPeak
            (percentBuPeak d + peakRatePerSecond * stepTimeInSeconds) d)
      else scaleBurnup
  | None => scaleBurnup
  end.

(** The body of [for b in blockList] *)
Definition updateBlock (stepTimeInSeconds : F) (b : BlockId)
    : action DoseReactor unit :=
  let* rx := getState in
  let* _ :=
    modifyDose b (accumulateDose stepTimeInSeconds (fluxParams (blocks rx b))) in
  let* _ :=
    updatePointDpa pointsCornerDpaRate pointsCornerDpa setPointsCornerDpa
      stepTimeInSeconds b in
  let* _ :=
    updatePointDpa pointsEdgeDpaRate pointsEdgeDpa setPointsEdgeDpa
      stepTimeInSeconds b in
  let* _ :=
    match dpaPerFluence with
    | Some factor =>
        if truthy factor then
          modifyDose b (fun d =>
            setDpaPeakFromFluence (fastFluencePeak d * factor) d)
        else pure tt
    | None => pure tt
    end in
  updatePercentBuPeak stepTimeInSeconds b.

Fixpoint forBlocks (stepTimeInSeconds : F) (blockList : list BlockId)
    : action DoseReactor unit :=
  match blockList with
  | [] => pure tt
  | b :: blockList' =>
      let* _ := updateBlock stepTimeInSeconds b in
      forBlocks stepTimeInSeconds blockList'
  end.

(** [blockList or self.r.core.getBlocks()]: [None] and the empty list are
    both replaced *)
Definition effectiveBlockList (blockList : option (list BlockId))
    (rx : DoseReactor) : list BlockId :=
  match blockList with
  | Some (b :: bs) => b :: bs
  | Some [] | None => core_getBlocks rx
  end.

Definition updateFluenceAndDpa (stepTimeInSeconds : F)
    (blockList : option (list BlockId)) : action DoseReactor unit :=
  let* rx := getState in
  let blockList := effectiveBlockList blockList rx in
  match blockList with
  | [] => raise IndexError                      (* blockList[0] *)
  | first :: _ =>
      let* _ :=
        if negb (truthy (fluxPeak (fluxParams (blocks rx first))))
        then modify (logRecordOf warnNoFluxPeak)
        else pure tt in
      let* _ := forBlocks stepTimeInSeconds blockList in
      let* _ :=
        modify (fun rx =>
          setDaysSinceLastMove
            (map (fun d => d + ndiv stepTimeInSeconds SECONDS_PER_DAY)
                 (daysSinceLastMove rx)) rx) in
      let* _ := coreSummary updateMaxDpaParams in
      let* _ := coreSummary updateCycleDoseParams in
      coreSummary updateLoadpadDose
  end.

End DoseResultsMapper.

Arguments Block F : clear implicits.
Arguments BlockFluxParams F : clear implicits.
Arguments BlockDoseParams F : clear implicits.
Arguments DoseReactor F : clear implicits.

(** ** Example data

    A one-nuclide object, a two-group flux and a library with that
    nuclide, in exact arithmetic. *)

Definition exampleMicros : Micros Qc := {|
  micros_xs := fun name =>
    match name with
    | nGamma => [Qc_of_frac 1 10; Qc_of_frac 2 10]
    | fission => [Qc_of_frac 3 10; Qc_of_frac 4 10]
    | nalph => [Qc_of_frac 1 100; Qc_of_frac 1 100]
    | _ => [Qc_of_frac 0 1; Qc_of_frac 0 1]
    end;
  micros_n2n := [Qc_of_frac 1 1000; Qc_of_frac 2 1000];
  micros_neutronsPerFission := [Qc_of_frac 24 10; Qc_of_frac 25 10]
|}.

Definition exampleLibrary : XSLibrary Qc :=
  fun nucName suffix =>
    if String.eqb nucName "U235" then Ok exampleMicros else Raise KeyError.

Definition exampleObject : RxObject Qc := {|
  getNumberDensities := [("U235", Qc_of_frac 1 2); ("O16", Qc_of_frac 0 1)];
  getMicroSuffix := "AA";
  getMgFlux := [Qc_of_frac 3 1; Qc_of_frac 4 1];
  fuelAreaFrac := Qc_of_frac 1 4;
  p := ∅
|}.

(** The same kind of object in binary64: one nuclide, one group. *)
Definition floatMicros : Micros float := {|
  micros_xs := fun name =>
    match name with
    | nGamma => [0.1%float]
    | fission => [0.1%float]
    | nalph => [0.4%float]
    | _ => [0%float]
    end;
  micros_n2n := [0%float];
  micros_neutronsPerFission := [2.5%float]
|}.

Definition floatObject : RxObject float := {|
  getNumberDensities := [("U235", 1%float)];
  getMicroSuffix := "AA";
  getMgFlux := [1%float];
  fuelAreaFrac := 0.25%float;
  p := ∅
|}.

(** The relative difference of two powers, relative to the larger
    magnitude (zero when both are zero), in exact arithmetic. *)
Definition Qcmax (x y : Qc) : Qc := if Qclt_le_dec x y then y else x.

Definition relativeDifference (a b : Qc) : Qc :=
  (Qcabs (a - b) / Qcmax (Qcabs a) (Qcabs b))%Qc.

(** A core of one assembly with two blocks, with powers in watts. *)
Definition exampleCore {F : Type} (blockA blockB specified multiplier : F)
    : Core F :=
  {| blockPower := [[blockA; blockB]];
     core_power := specified;
     powerMultiplier := multiplier |}.

(** ** Example executers

    A reactor reduced to one number (a parameter of its blocks, say), and
    collaborators that succeed: conversion copies the reactor, the edge
    assembly steps leave the number alone, the solver adds one to the
    reactor it is given and reports the eigenvalue 7, and applying the
    state to the original overwrites it with the converted reactor. *)

Definition exampleConvert (_ : GlobalFluxOptions) (m : nat) : result nat := Ok m.
Definition examplePlot (_ : nat) : result unit := Ok tt.
Definition exampleAddEdge (m : nat) : result nat := Ok m.
Definition exampleScale (_ : option (list string)) (m : nat) : result nat := Ok m.
Definition exampleRemoveEdge (m : nat) : result nat := Ok m.
Definition exampleApplyState (conv _ : nat) : result nat := Ok conv.
Definition exampleSolve (_ : GlobalFluxOptions) (m : nat) : result (nat * nat) :=
  Ok (S m, 7).

Definition exampleOptions (kernel : string) (sym : SymmetryType)
    (axial nonUniform : option bool) (applyResults : bool) : GlobalFluxOptions :=
  {| kernelName := Some kernel;
     symmetry := Some sym;
     geomType := Some HEX;
     detailedAxialExpansion := axial;
     hasNonUniformAssems := nonUniform;
     applyResultsToReactor := applyResults;
     paramsToScaleSubset := None |}.

Definition fullCore : SymmetryType :=
  {| domain := FULL_CORE; boundary := NO_SYMMETRY |}.

Definition thirdPeriodic : SymmetryType :=
  {| domain := THIRD_CORE; boundary := PERIODIC |}.

(** An executer on the reactor 0, whose number is 0; the reference 1 is
    the next fresh one. *)
Definition exampleExecuter (opts : GlobalFluxOptions) : Executer nat :=
  newExecuter (fun _ => 0) 1 opts 0.

Definition examplePerform : action (Executer nat) unit :=
  _performGeometryTransformations exampleConvert examplePlot exampleAddEdge false.

Definition exampleUndo : action (Executer nat) unit :=
  _undoGeometryTransformations exampleScale exampleRemoveEdge exampleApplyState.

Definition exampleRun : action (Executer nat) nat :=
  run exampleConvert examplePlot exampleAddEdge exampleScale exampleRemoveEdge
    exampleApplyState exampleSolve.

(** ** Example reactor for the dose mapper

    One block with a flux, dpa rates of 2 and 3 per second and an
    accumulated dpa of 5; the core lists it once. *)

Definition exampleFluxParams : BlockFluxParams Qc := {|
  flux := Qc_of_frac 10 1;
  fluxPeak := Qc_of_frac 12 1;
  fastFluxFr := Qc_of_frac 1 2;
  detailedDpaRate := Qc_of_frac 2 1;
  detailedDpaPeakRate := Qc_of_frac 3 1;
  pointsCornerDpaRate := None;
  pointsEdgeDpaRate := None;
  buRatePeak := Qc_of_frac 1 1;
  buRate := Qc_of_frac 1 1;
  percentBu := Qc_of_frac 1 1
|}.

Definition exampleDoseParams : BlockDoseParams Qc := {|
  residence := Qc_of_frac 0 1;
  fluence := Qc_of_frac 0 1;
  fastFluence := Qc_of_frac 0 1;
  fastFluencePeak := Qc_of_frac 0 1;
  newDPA := Qc_of_frac 0 1;
  newDPAPeak := Qc_of_frac 0 1;
  detailedDpa := Qc_of_frac 5 1;
  detailedDpaPeak := Qc_of_frac 6 1;
  detailedDpaThisCycle := Qc_of_frac 1 1;
  pointsCornerDpa := None;
  pointsEdgeDpa := None;
  dpaPeakFromFluence := Qc_of_frac 0 1;
  percentBuPeak := Qc_of_frac 0 1
|}.

Definition exampleBlock : Block Qc :=
  {| fluxParams := exampleFluxParams; doseParams := exampleDoseParams |}.

(** The same block with a negative flux *)
Definition negativeFluxBlock : Block Qc :=
  {| fluxParams := {|
       flux := Qc_of_frac (-10) 1;
       fluxPeak := fluxPeak exampleFluxParams;
       fastFluxFr := fastFluxFr exampleFluxParams;
       detailedDpaRate := detailedDpaRate exampleFluxParams;
       detailedDpaPeakRate := detailedDpaPeakRate exampleFluxParams;
       pointsCornerDpaRate := None;
       pointsEdgeDpaRate := None;
       buRatePeak := buRatePeak exampleFluxParams;
       buRate := buRate exampleFluxParams;
       percentBu := percentBu exampleFluxParams |};
     doseParams := exampleDoseParams |}.

(** The block 0 is [exampleBlock], every other one [negativeFluxBlock]. *)
Definition exampleDoseReactor (coreBlocks : list nat) : DoseReactor Qc := {|
  blocks := fun b => match b with 0 => exampleBlock | _ => negativeFluxBlock end;
  core_getBlocks := coreBlocks;
  daysSinceLastMove := [Qc_of_frac 0 1];
  core_p := ∅;
  runLog := []
|}.

(** The summaries, for the example: the parameters of the core stay. *)
Definition exampleSummary (rx : DoseReactor Qc) : result (gmap string Qc) :=
  Ok (core_p rx).

Definition exampleUpdateFluenceAndDpa (stepTimeInSeconds : Qc)
    (blockList : option (list nat)) : action (DoseReactor Qc) unit :=
  updateFluenceAndDpa (Qc_of_frac 0 1) None exampleSummary exampleSummary
    exampleSummary stepTimeInSeconds blockList.

(** ** Predicates of the properties *)

(** A dictionary of rates is balanced when absorption is capture plus
    fission. *)
Definition balanced (d : gmap string Qc) : Prop :=
  d !!! "rateAbs" = (d !!! "rateCap" + d !!! "rateFis")%Qc.

(** The dose of a block has not decreased: the dpa fields and the
    residence time. *)
Definition doseLe (d d' : BlockDoseParams Qc) : Prop :=
  (detailedDpa d <= detailedDpa d')%Qc
  /\ (detailedDpaPeak d <= detailedDpaPeak d')%Qc
  /\ (detailedDpaThisCycle d <= detailedDpaThisCycle d')%Qc
  /\ (residence d <= residence d')%Qc.

(** The fluence of a block has not decreased. *)
Definition fluenceLe (d d' : BlockDoseParams Qc) : Prop :=
  (fluence d <= fluence d')%Qc
  /\ (fastFluence d <= fastFluence d')%Qc
  /\ (fastFluencePeak d <= fastFluencePeak d')%Qc.

Definition nonnegativeRates (fp : BlockFluxParams Qc) : Prop :=
  (0 <= detailedDpaRate fp)%Qc /\ (0 <= detailedDpaPeakRate fp)%Qc.

Definition nonnegativeFlux (fp : BlockFluxParams Qc) : Prop :=
  (0 <= flux fp)%Qc /\ (0 <= fluxPeak fp)%Qc /\ (0 <= fastFluxFr fp)%Qc.

(** From one state of the reactor to a later one: what the method only
    reads is as it was, no block with non-negative dpa rates has lost
    dose, and no block with non-negative fluxes has lost fluence. *)
Definition doseGrows (rx rx' : DoseReactor Qc) : Prop :=
  forall b : BlockId,
    fluxParams (blocks rx' b) = fluxParams (blocks rx b)
    /\ (nonnegativeRates (fluxParams (blocks rx b)) ->
        doseLe (doseParams (blocks rx b)) (doseParams (blocks rx' b)))
    /\ (nonnegativeFlux (fluxParams (blocks rx b)) ->
        fluenceLe (doseParams (blocks rx b)) (doseParams (blocks rx' b))).

Definition growsAt {A : Type} (c : action (DoseReactor Qc) A)
    (rx : DoseReactor Qc) : Prop :=
  forall rx' res, c rx = (rx', res) -> doseGrows rx rx'.

(** An assignment that leaves the accumulated dose and fluence alone *)
Definition keepsDose (f : BlockDoseParams Qc -> BlockDoseParams Qc) : Prop :=
  forall d, doseLe d (f d) /\ fluenceLe d (f d).

(** ** Further example data *)

(** An edge-assembly step that fails, and steps that can be told apart:
    scaling adds 10 to the number of the reactor, removing the edge
    assemblies adds 100. *)
Definition exampleAddEdgeFails (_ : nat) : result nat :=
  Raise (ExternalError "addEdgeAssemblies").
Definition exampleScale10 (_ : option (list string)) (m : nat) : result nat :=
  Ok (m + 10).
Definition exampleRemoveEdge100 (m : nat) : result nat := Ok (m + 100).

(** An executer in the middle of a solve: the reactor 0 is the original
    (number 0), the reactor 1 its converted copy (number 1), both
    converters are registered and the executer works on the copy. *)
Definition transformedExecuter (opts : GlobalFluxOptions) : Executer nat :=
  {| reactors := fun ref => ref;
     nextRef := 2;
     r := 1;
     options := opts;
     geomConverters :=
       <["edgeAssems" := EdgeAssemblyChanger]>
         (<["axial" := UniformMeshConverter 0 1]> ∅) |}.

(** The object with other number densities, and the test of
    [if numberDensity == 0.0: continue] *)
Definition setNumberDensities {F : Type} (items : list (string * F))
    (obj : RxObject F) : RxObject F :=
  {| getNumberDensities := items;
     getMicroSuffix := getMicroSuffix obj;
     getMgFlux := getMgFlux obj;
     fuelAreaFrac := fuelAreaFrac obj;
     p := p obj |}.

Definition hasDensity {F : Type} `{Num F} (item : string * F) : bool :=
  negb (neqb (snd item) zero).

(** The parameters that [calcReactionRates] assigns *)
Definition reactionRateParams : list string :=
  RX_PARAM_NAMES ++ ["fisDens"; "fisDensHom"].

(** ** Steps within a relation

    [within R c s]: whatever [c] does from the state [s], returning or
    raising, the state it reaches is related to [s] by [R]. *)
Definition within {S A : Type} (R : S -> S -> Prop) (c : action S A) (s : S)
    : Prop :=
  forall s' res, c s = (s', res) -> R s s'.

(** The fields of a block that the accumulation of a step assigns *)
Definition accumulated {F : Type} (d : BlockDoseParams F)
    : F * F * F * F * F * F * F * F * F :=
  (residence d, fluence d, fastFluence d, fastFluencePeak d, newDPA d,
   newDPAPeak d, detailedDpa d, detailedDpaPeak d, detailedDpaThisCycle d).

(** Between two states of the reactor, only the dose parameters of the
    blocks in [bs] (and the run log) may differ. *)
Definition touchesOnly {F : Type} (bs : list nat) (rx rx' : DoseReactor F)
    : Prop :=
  (forall b : nat, b ∉ bs -> blocks rx' b = blocks rx b)
  /\ (forall b : nat, fluxParams (blocks rx' b) = fluxParams (blocks rx b))
  /\ core_getBlocks rx' = core_getBlocks rx
  /\ daysSinceLastMove rx' = daysSinceLastMove rx
  /\ core_p rx' = core_p rx.

(** The same, and the accumulated fields of every block are kept. *)
Definition keepsAccumulated {F : Type} (bs : list nat)
    (rx rx' : DoseReactor F) : Prop :=
  touchesOnly bs rx rx'
  /\ forall b : nat,
       accumulated (doseParams (blocks rx' b))
       = accumulated (doseParams (blocks rx b)).

(** * Properties *)

(** ** Arithmetic of the two instances *)

Ltac unfold_Qc :=
  cbn [zero one two nadd nsub nmul ndiv nabs nltb nleb neqb nisinf Qc_num] in *;
  unfold Qc_of_frac in *.

Lemma Qc_nltb_true (x y : Qc) : nltb x y = true <-> (x < y)%Qc.
Proof. unfold_Qc. apply bool_decide_eq_true. Qed.

Lemma Qc_nltb_false (x y : Qc) : nltb x y = false <-> (y <= x)%Qc.
Proof.
  unfold_Qc. rewrite bool_decide_eq_false. split.
  - apply Qcnot_lt_le.
  - apply Qcle_not_lt.
Qed.

Lemma Qc_neqb_true (x y : Qc) : neqb x y = true <-> x = y.
Proof. unfold_Qc. apply bool_decide_eq_true. Qed.

Lemma Qc_truthy (x : Qc) : truthy x = false <-> x = 0%Qc.
Proof.
  unfold truthy. rewrite negb_false_iff. apply Qc_neqb_true.
Qed.

(** ** [computeDpaRate] *)

Section ComputeDpaRateFacts.
Context {F : Type} `{Num F}.

Lemma computeDpaRate_equal_length (mgFlux dpaXs : list F) :
  length mgFlux = length dpaXs ->
  computeDpaRate mgFlux dpaXs =
    checkDpaPerSecond
      (computedDpaPerSecond mgFlux dpaXs).
Proof.
  intros Hlen. unfold computeDpaRate.
  rewrite Hlen, Nat.eqb_refl. reflexivity.
Qed.

Lemma checkDpaPerSecond_nonnegative (v : F) :
  nltb v zero = false -> checkDpaPerSecond v = ([], Ok v).
Proof. intros Hv. unfold checkDpaPerSecond. rewrite Hv. reflexivity. Qed.

Lemma checkDpaPerSecond_clamp (v : F) :
  nltb v zero = true -> nltb v NEGATIVE_DPA_LIMIT = false ->
  checkDpaPerSecond v = ([warnNegativeDpaPerSecond], Ok zero).
Proof.
  intros Hneg Hlim. unfold checkDpaPerSecond. rewrite Hneg, Hlim. reflexivity.
Qed.

Lemma checkDpaPerSecond_fatal (v : F) :
  nltb v zero = true -> nltb v NEGATIVE_DPA_LIMIT = true ->
  checkDpaPerSecond v = ([warnNegativeDpaPerSecond], Raise RuntimeError).
Proof.
  intros Hneg Hlim. unfold checkDpaPerSecond. rewrite Hneg, Hlim. reflexivity.
Qed.

End ComputeDpaRateFacts.

(** Without rounding the accumulator of the loop holds the sum of the
    formula. *)
Lemma accumulateDisplacements_sum (acc : Qc) (mgFlux dpaXs : list Qc) :
  accumulateDisplacements acc mgFlux dpaXs
  = (acc + sumOverGroups mgFlux dpaXs)%Qc.
Proof.
  revert acc dpaXs.
  induction mgFlux as [|flux mgFlux IH]; intros acc [|barns dpaXs]; cbn [accumulateDisplacements sumOverGroups]; unfold_Qc; try ring.
  rewrite IH. unfold_Qc. ring.
Qed.

(** C4, as stated, fails: an equal-length input whose weighted sum is
    negative does not come back as the product (here [-1e-11] is computed
    and [0.0] is returned), and in binary64 the example returns
    [4.9999999999999993e-09], which Python's [==] tells apart from
    [5e-9]. *)
Lemma computeDpaRate_product_counterexample :
  (let mgFlux := [1e13]%float in
   let dpaXs := [-1]%float in
   length mgFlux = length dpaXs
   /\ computedDpaPerSecond mgFlux dpaXs = (-1e-11)%float
   /\ computeDpaRate mgFlux dpaXs = ([warnNegativeDpaPerSecond], Ok 0%float))
  /\ computeDpaRate [1e14; 2e14]%float [10; 20]%float
      = ([], Ok 4.9999999999999993e-09%float)
  /\ PrimFloat.eqb 4.9999999999999993e-09 5e-9 = false.
Proof. repeat split. Qed.

(** C4, amended: for equal-length vectors whose accumulated product
    [dpaPerSecond] is not negative, [computeDpaRate] returns that product
    without a warning: the left-to-right accumulation of
    [flux[g] * dpaXs[g]] from [0.0], times [1e-24]. Without rounding this
    is the sum over the groups times [1e-24], and the example gives
    exactly [5e-9]; in binary64 the example gives the float just below the
    one nearest to [5e-9]. *)
Theorem computeDpaRate_product :
  (forall (F : Type) (N : Num F) (mgFlux dpaXs : list F),
      length mgFlux = length dpaXs ->
      nltb (computedDpaPerSecond mgFlux dpaXs) zero = false ->
      computeDpaRate mgFlux dpaXs
      = ([], Ok (computedDpaPerSecond mgFlux dpaXs)))
  /\ (forall mgFlux dpaXs : list Qc,
      length mgFlux = length dpaXs ->
      (0 <= sumOverGroups mgFlux dpaXs)%Qc ->
      computeDpaRate mgFlux dpaXs
      = ([], Ok (sumOverGroups mgFlux dpaXs * Qc_of_frac 1 1000000000000000000000000)%Qc))
  /\ computeDpaRate [q_1e14; q_2e14] [q_10; q_20] = ([], Ok q_5em9)
  /\ (exists x : float,
        computeDpaRate [1e14; 2e14]%float [10; 20]%float = ([], Ok x)
        /\ next_up x = 5e-9%float).
Proof.
  split; [|split; [|split]].
  - intros F N mgFlux dpaXs Hlen Hpos.
    rewrite computeDpaRate_equal_length by exact Hlen.
    apply checkDpaPerSecond_nonnegative, Hpos.
  - intros mgFlux dpaXs Hlen Hpos.
    rewrite computeDpaRate_equal_length by exact Hlen.
    unfold computedDpaPerSecond. rewrite accumulateDisplacements_sum.
    replace (zero + sumOverGroups mgFlux dpaXs)%Qc
      with (sumOverGroups mgFlux dpaXs) by (unfold_Qc; ring).
    apply checkDpaPerSecond_nonnegative.
    apply Qc_nltb_false. unfold_Qc.
    pose proof (Qcmult_le_compat_r 0 (sumOverGroups mgFlux dpaXs)
                  (Q2Qc (1 # 1000000000000000000000000)) Hpos) as Hmul.
    rewrite Qcmult_0_l in Hmul. apply Hmul. discriminate.
  - vm_compute. f_equal. f_equal. apply Qc_is_canon. reflexivity.
  - eexists. split; reflexivity.
Qed.

Lemma computeDpaRate_product_witness :
  computeDpaRate [q_1e14; q_2e14] [q_10; q_20]
  = ([], Ok (sumOverGroups [q_1e14; q_2e14] [q_10; q_20]
             * Qc_of_frac 1 1000000000000000000000000)%Qc).
Proof.
  apply (proj1 (proj2 computeDpaRate_product)).
  - reflexivity.
  - discriminate.
Defined.

(** C5, as stated, fails at the limit itself: the flux below gives a
    computed value equal to the literal [-1.0e-10], and the call returns
    [0.0] with a warning instead of raising. *)
Lemma computeDpaRate_limit_counterexample :
  let mgFlux := [-100000000000000.015625]%float in
  let dpaXs := [1]%float in
  computedDpaPerSecond mgFlux dpaXs = (-1.0e-10)%float
  /\ computeDpaRate mgFlux dpaXs = ([warnNegativeDpaPerSecond], Ok 0%float).
Proof. split; reflexivity. Qed.

(** C5, amended: a computed result that is negative and not below
    [-1e-10] (the limit included) is replaced by [0.0] with a warning; a
    computed result strictly below [-1e-10] makes the call raise
    [RuntimeError], after the same warning. A computed [-1e-11] gives
    [0.0] and a computed [-1e-9] raises. *)
Theorem computeDpaRate_negative :
  (forall (F : Type) (N : Num F) (mgFlux dpaXs : list F),
      length mgFlux = length dpaXs ->
      nltb (computedDpaPerSecond mgFlux dpaXs) zero = true ->
      computeDpaRate mgFlux dpaXs =
        if nltb (computedDpaPerSecond mgFlux dpaXs) NEGATIVE_DPA_LIMIT
        then ([warnNegativeDpaPerSecond], Raise RuntimeError)
        else ([warnNegativeDpaPerSecond], Ok zero))
  /\ (forall v : Qc,
        (Qc_of_frac (-1) 10000000000 <= v)%Qc -> (v < 0)%Qc ->
        checkDpaPerSecond v = ([warnNegativeDpaPerSecond], Ok 0%Qc))
  /\ (forall v : Qc,
        (v < Qc_of_frac (-1) 10000000000)%Qc ->
        checkDpaPerSecond v = ([warnNegativeDpaPerSecond], Raise RuntimeError))
  /\ checkDpaPerSecond (-1e-11)%float = ([warnNegativeDpaPerSecond], Ok 0%float)
  /\ checkDpaPerSecond (-1e-10)%float = ([warnNegativeDpaPerSecond], Ok 0%float)
  /\ checkDpaPerSecond (-1e-9)%float = ([warnNegativeDpaPerSecond], Raise RuntimeError)
  /\ computeDpaRate [-1e13]%float [1]%float = ([warnNegativeDpaPerSecond], Ok 0%float)
  /\ computeDpaRate [-1e15]%float [1]%float
      = ([warnNegativeDpaPerSecond], Raise RuntimeError).
Proof.
  split; [|split; [|split]].
  - intros F N mgFlux dpaXs Hlen Hneg.
    rewrite computeDpaRate_equal_length by exact Hlen.
    unfold checkDpaPerSecond. rewrite Hneg. reflexivity.
  - intros v Hlim Hneg. rewrite checkDpaPerSecond_clamp; [reflexivity| |].
    + apply Qc_nltb_true, Hneg.
    + apply Qc_nltb_false, Hlim.
  - intros v Hlim. rewrite checkDpaPerSecond_fatal; [reflexivity| |].
    + apply Qc_nltb_true. eapply Qclt_trans; [exact Hlim|]. reflexivity.
    + apply Qc_nltb_true, Hlim.
  - repeat split.
Qed.

Lemma computeDpaRate_negative_witness :
  checkDpaPerSecond (Qc_of_frac (-1) 100000000000)
  = ([warnNegativeDpaPerSecond], Ok 0%Qc)
  /\ checkDpaPerSecond (Qc_of_frac (-1) 1000000000)
     = ([warnNegativeDpaPerSecond], Raise RuntimeError).
Proof.
  split.
  - apply (proj1 (proj2 computeDpaRate_negative)).
    + discriminate.
    + reflexivity.
  - apply (proj1 (proj2 (proj2 computeDpaRate_negative))). reflexivity.
Defined.

(** C6: on vectors of different lengths [computeDpaRate] emits the
    warning and returns [0.0]; it does not raise. *)
Theorem computeDpaRate_length_mismatch (F : Type) (N : Num F)
    (mgFlux dpaXs : list F) :
  length mgFlux <> length dpaXs ->
  computeDpaRate mgFlux dpaXs = ([warnIncompatibleLengths], Ok zero).
Proof.
  intros Hlen. unfold computeDpaRate.
  apply Nat.eqb_neq in Hlen. rewrite Hlen. reflexivity.
Qed.

Lemma computeDpaRate_length_mismatch_witness :
  computeDpaRate [1e14; 2e14]%float [10]%float
  = ([warnIncompatibleLengths], Ok 0%float).
Proof.
  apply (computeDpaRate_length_mismatch float float_num). cbn. lia.
Defined.

(** ** [calcReactionRates] *)

Section AddTo.
Context {F : Type} `{Num F}.

Lemma addTo_lookup (k : string) (v : F) (d : gmap string F) :
  addTo k v d !!! k = nadd (d !!! k) v.
Proof. unfold addTo. apply lookup_total_insert_eq. Qed.

Lemma addTo_lookup_ne (k k' : string) (v : F) (d : gmap string F) :
  k <> k' -> addTo k v d !!! k' = d !!! k'.
Proof. intros Hne. unfold addTo. apply lookup_total_insert_ne, Hne. Qed.

End AddTo.

Ltac addTo_simpl :=
  repeat first
    [ rewrite addTo_lookup
    | rewrite addTo_lookup_ne by discriminate ].

Lemma zeroRates_balanced : balanced zeroRates.
Proof.
  unfold balanced, zeroRates, RX_PARAM_NAMES. cbn [foldl].
  repeat first
    [ rewrite lookup_total_insert_eq
    | rewrite lookup_total_insert_ne by discriminate ].
  unfold_Qc. ring.
Qed.

Lemma groupLoop_balanced (name : RxLabel) (numberDensity keff : Qc)
    (nu : list Qc) (g : nat) (mgFlux xss : list Qc)
    (nucrate nucrate' : gmap string Qc) :
  balanced nucrate ->
  groupLoop name numberDensity keff nu g mgFlux xss nucrate = Ok nucrate' ->
  balanced nucrate'.
Proof.
  revert g xss nucrate.
  induction mgFlux as [|groupFlux mgFlux IH]; intros g [|xs xss] nucrate Hbal;
    cbn [groupLoop]; try (intros [= <-]; exact Hbal).
  destruct (isFission name); cbn [negb rbind].
  - destruct (nu !! g) as [n|]; [|discriminate].
    destruct (pydiv _ keff) as [prod|e]; [|discriminate]. cbn [rbind].
    apply IH. unfold balanced in *. addTo_simpl. rewrite Hbal. unfold_Qc. ring.
  - apply IH. unfold balanced in *. addTo_simpl. rewrite Hbal. unfold_Qc. ring.
Qed.

Lemma labelLoop_balanced (names : list RxLabel) (numberDensity keff : Qc)
    (mc : Micros Qc) (mgFlux : list Qc) (nucrate nucrate' : gmap string Qc) :
  balanced nucrate ->
  labelLoop names numberDensity keff mc mgFlux nucrate = Ok nucrate' ->
  balanced nucrate'.
Proof.
  revert nucrate.
  induction names as [|name names IH]; intros nucrate Hbal; cbn [labelLoop].
  - intros [= <-]. exact Hbal.
  - destruct (groupLoop _ _ _ _ _ _ _ nucrate) as [d|e] eqn:Hgroup;
      [|discriminate].
    cbn [rbind]. apply IH. eapply groupLoop_balanced; eassumption.
Qed.

Lemma n2nLoop_balanced (numberDensity : Qc) (mgFlux n2n : list Qc)
    (nucrate : gmap string Qc) :
  balanced nucrate -> balanced (n2nLoop numberDensity mgFlux n2n nucrate).
Proof.
  revert n2n nucrate.
  induction mgFlux as [|groupFlux mgFlux IH]; intros [|n2nXs n2n] nucrate Hbal;
    cbn [n2nLoop]; try exact Hbal.
  apply IH. unfold balanced in *. addTo_simpl. exact Hbal.
Qed.

(** Skipping a zero contribution is adding it. *)
Lemma addNuclideRates_lookup (nucrate rate : gmap string Qc) (k : string) :
  k ∈ RX_PARAM_NAMES ->
  addNuclideRates nucrate rate !!! k = (rate !!! k + nucrate !!! k)%Qc.
Proof.
  intros Hk. unfold addNuclideRates, RX_PARAM_NAMES in *. cbn [foldl].
  assert (Hstep : forall (s : string) (d : gmap string Qc),
    (if truthy (nucrate !!! s) then addTo s (nucrate !!! s) d else d) !!! k
    = if decide (s = k) then (d !!! k + nucrate !!! k)%Qc else d !!! k).
  { intros s d. destruct (truthy (nucrate !!! s)) eqn:Ht.
    - destruct (decide (s = k)) as [->|Hne].
      + rewrite addTo_lookup. reflexivity.
      + rewrite addTo_lookup_ne by exact Hne. reflexivity.
    - apply Qc_truthy in Ht. destruct (decide (s = k)) as [->|Hne]; [|reflexivity].
      rewrite Ht. ring. }
  rewrite !Hstep.
  repeat (apply elem_of_cons in Hk; destruct Hk as [->|Hk]);
    [ .. | apply elem_of_nil in Hk; destruct Hk ];
    repeat case_decide; first [reflexivity | congruence].
Qed.

Lemma addNuclideRates_balanced (nucrate rate : gmap string Qc) :
  balanced nucrate -> balanced rate -> balanced (addNuclideRates nucrate rate).
Proof.
  unfold balanced. intros Hn Hr.
  rewrite !addNuclideRates_lookup
    by (unfold RX_PARAM_NAMES; repeat first [left | right]).
  rewrite Hn, Hr. ring.
Qed.

Lemma nuclideStep_balanced (obj : RxObject Qc) (keff : Qc) (lib : XSLibrary Qc)
    (rate rate' : gmap string Qc) (item : string * Qc) :
  balanced rate ->
  nuclideStep obj keff lib rate item = Ok rate' ->
  balanced rate'.
Proof.
  intros Hbal. destruct item as [nucName numberDensity]. unfold nuclideStep.
  destruct (neqb numberDensity zero); [intros [= <-]; exact Hbal|].
  destruct (lib nucName _) as [nucMc|e]; [|discriminate]. cbn [rbind].
  destruct (labelLoop _ _ _ _ _ _) as [nucrate|e] eqn:Hlabels; [|discriminate].
  cbn [rbind]. intros [= <-].
  apply addNuclideRates_balanced; [|exact Hbal].
  apply n2nLoop_balanced.
  eapply labelLoop_balanced; [exact zeroRates_balanced | exact Hlabels].
Qed.

Lemma nuclideLoop_balanced (obj : RxObject Qc) (keff : Qc) (lib : XSLibrary Qc)
    (items : list (string * Qc)) (rate rate' : gmap string Qc) :
  balanced rate ->
  nuclideLoop obj keff lib items rate = Ok rate' ->
  balanced rate'.
Proof.
  revert rate.
  induction items as [|item items IH]; intros rate Hbal; cbn [nuclideLoop].
  - intros [= <-]. exact Hbal.
  - destruct (nuclideStep obj keff lib rate item) as [rate1|e] eqn:Hstep;
      [|discriminate].
    cbn [rbind]. apply IH. eapply nuclideStep_balanced; eassumption.
Qed.

Lemma writeRates_lookup {F : Type} `{Num F} (rate params : gmap string F)
    (k : string) :
  k ∈ RX_PARAM_NAMES -> writeRates rate params !! k = Some (rate !!! k).
Proof.
  intros Hk. unfold writeRates, RX_PARAM_NAMES in *. cbn [foldl].
  repeat (apply elem_of_cons in Hk; destruct Hk as [->|Hk]);
    [ .. | apply elem_of_nil in Hk; destruct Hk ];
    repeat first
      [ rewrite lookup_insert_eq
      | rewrite lookup_insert_ne by discriminate ];
    reflexivity.
Qed.

(** C7: after a call of [calcReactionRates] that returns, the parameter
    [rateAbs] of the object is [rateCap + rateFis]. The equality is that
    of the arithmetic without rounding; binary64 adds the same terms in
    another order and agrees up to rounding only. *)
Theorem calcReactionRates_absorption_balance (keff : Qc) (lib : XSLibrary Qc)
    (obj obj' : RxObject Qc) :
  calcReactionRates keff lib obj = (obj', Ok tt) ->
  exists rateCap rateFis : Qc,
    p obj' !! "rateCap" = Some rateCap
    /\ p obj' !! "rateFis" = Some rateFis
    /\ p obj' !! "rateAbs" = Some (rateCap + rateFis)%Qc.
Proof.
  unfold calcReactionRates.
  destruct (nuclideLoop obj keff lib _ zeroRates) as [rate|e] eqn:Hloop;
    [|discriminate].
  apply nuclideLoop_balanced in Hloop; [|exact zeroRates_balanced].
  destruct (pydiv _ _) as [fisDens|e]; [|discriminate].
  intros [= <-]. cbn [p setParams].
  exists (rate !!! "rateCap"), (rate !!! "rateFis").
  rewrite !lookup_insert_ne by discriminate.
  rewrite !writeRates_lookup
    by (unfold RX_PARAM_NAMES; repeat first [left | right]).
  rewrite Hloop. auto.
Qed.

Lemma calcReactionRates_absorption_balance_witness :
  exists (obj' : RxObject Qc) (rateCap rateFis : Qc),
    calcReactionRates (Qc_of_frac 1 1) exampleLibrary exampleObject = (obj', Ok tt)
    /\ p obj' !! "rateCap" = Some rateCap
    /\ p obj' !! "rateFis" = Some rateFis
    /\ p obj' !! "rateAbs" = Some (rateCap + rateFis)%Qc.
Proof.
  destruct (calcReactionRates (Qc_of_frac 1 1) exampleLibrary exampleObject)
    as [obj' res] eqn:Hcall.
  assert (Hres : res = Ok tt).
  { apply (f_equal snd) in Hcall. cbn [snd] in Hcall. rewrite <- Hcall.
    vm_compute. reflexivity. }
  subst res.
  destruct (calcReactionRates_absorption_balance _ _ _ _ Hcall)
    as (rateCap & rateFis & Hcap & Hfis & Habs).
  exists obj', rateCap, rateFis. auto.
Defined.

(** In binary64 the two sides of C7 are sums of the same terms in
    different orders: here absorption is [(0.1 + 0.1) + 0.4] and capture
    plus fission is [(0.1 + 0.4) + 0.1], one unit in the last place
    apart. *)
Remark calcReactionRates_binary64_rounding :
  let obj' := fst (calcReactionRates 1%float (fun _ _ => Ok floatMicros) floatObject) in
  p obj' !! "rateAbs" = Some 0.6000000000000001%float
  /\ p obj' !! "rateCap" = Some 0.5%float
  /\ p obj' !! "rateFis" = Some 0.1%float
  /\ PrimFloat.eqb (0.5 + 0.1) 0.6000000000000001 = false
  /\ next_up (0.5 + 0.1) = 0.6000000000000001%float.
Proof. vm_compute. repeat split. Qed.

(** ** [checkEnergyBalance] *)

Lemma Qcmax_case (x y : Qc) (P : Qc -> Prop) :
  ((x < y)%Qc -> P y) -> ((y <= x)%Qc -> P x) -> P (Qcmax x y).
Proof. unfold Qcmax. destruct (Qclt_le_dec x y); auto. Qed.

Lemma Qcabs_zero_inv (x : Qc) : (Qcabs x <= 0)%Qc -> x = 0%Qc.
Proof.
  intros Hx. apply Qcabs_null. apply Qcle_antisym; [exact Hx|].
  apply Qcabs_nonneg.
Qed.

(** Exceeding a ratio is exceeding the product, for a positive divisor. *)
Lemma Qclt_div_iff (t d m : Qc) :
  (0 < m)%Qc -> (t < d / m)%Qc <-> (t * m < d)%Qc.
Proof.
  intros Hm.
  assert (Hm0 : m <> 0%Qc) by (intros ->; discriminate Hm).
  split; intros Hlt.
  - replace d with (d / m * m)%Qc by (field; exact Hm0).
    apply Qcmult_lt_compat_r; assumption.
  - replace t with (t * m / m)%Qc by (field; exact Hm0).
    unfold Qcdiv. apply Qcmult_lt_compat_r; [|exact Hlt].
    apply Qcinv_pos. exact Hm.
Qed.

Lemma Qcabs_tolerance (x : Qc) :
  Qcabs (ENERGY_BALANCE_REL_TOL * x) = (ENERGY_BALANCE_REL_TOL * Qcabs x)%Qc.
Proof.
  rewrite Qcabs_Qcmult, (Qcabs_pos ENERGY_BALANCE_REL_TOL);
    [reflexivity | discriminate].
Qed.

Lemma Qcmult_tolerance_le (x y : Qc) :
  (x <= y)%Qc -> (ENERGY_BALANCE_REL_TOL * x <= ENERGY_BALANCE_REL_TOL * y)%Qc.
Proof.
  intros Hxy. rewrite !(Qcmult_comm ENERGY_BALANCE_REL_TOL).
  apply Qcmult_le_compat_r; [exact Hxy | discriminate].
Qed.

(** In exact arithmetic [math.isclose] with the tolerance of the energy
    balance accepts exactly the pairs whose relative difference does not
    exceed the tolerance. *)
Lemma isclose_relativeDifference (a b : Qc) :
  isclose a b ENERGY_BALANCE_REL_TOL = true
  <-> (relativeDifference a b <= ENERGY_BALANCE_REL_TOL)%Qc.
Proof.
  unfold isclose, relativeDifference.
  cbn [nisinf neqb nleb nsub nmul nabs zero Qc_num orb].
  destruct (bool_decide (a = b)) eqn:Heq.
  - apply bool_decide_eq_true in Heq. subst b. split; [intros _|reflexivity].
    replace (a - a)%Qc with 0%Qc by ring.
    rewrite (Qcabs_pos 0) by discriminate. unfold Qcdiv.
    rewrite Qcmult_0_l. discriminate.
  - apply bool_decide_eq_false in Heq.
    rewrite !Qcabs_tolerance. rewrite (Qcabs_Qcminus a b).
    set (diff := Qcabs (b - a)).
    assert (Hdiff : (0 < diff)%Qc).
    { apply Qcnot_le_lt. intros Hle. apply Heq.
      apply Qcabs_zero_inv in Hle.
      replace a with (b - (b - a))%Qc by ring. rewrite Hle. ring. }
    assert (Hmax : (0 < Qcmax (Qcabs a) (Qcabs b))%Qc).
    { apply Qcnot_le_lt. intros Hle. apply Heq.
      revert Hle. apply Qcmax_case; intros Hcmp Hle.
      - exfalso. apply (Qclt_not_le _ _ Hcmp).
        eapply Qcle_trans; [exact Hle | apply Qcabs_nonneg].
      - rewrite (Qcabs_zero_inv a Hle).
        symmetry. apply Qcabs_zero_inv.
        eapply Qcle_trans; [exact Hcmp | exact Hle]. }
    rewrite !orb_true_iff, !bool_decide_eq_true.
    split.
    + intros Hclose. apply Qcnot_lt_le. intros Hlt.
      apply Qclt_div_iff in Hlt; [|exact Hmax].
      apply (Qclt_not_le _ _ Hlt). revert Hmax. apply Qcmax_case; intros Hcmp _.
      * destruct Hclose as [[Hb|Ha]|H0]; [exact Hb | |].
        -- eapply Qcle_trans; [exact Ha|].
           apply Qcmult_tolerance_le, Qclt_le_weak, Hcmp.
        -- exfalso. exact (Qclt_not_le _ _ Hdiff H0).
      * destruct Hclose as [[Hb|Ha]|H0]; [ | exact Ha |].
        -- eapply Qcle_trans; [exact Hb|].
           apply Qcmult_tolerance_le, Hcmp.
        -- exfalso. exact (Qclt_not_le _ _ Hdiff H0).
    + intros Hrel. left.
      assert (Hle : (diff <= ENERGY_BALANCE_REL_TOL
                        * Qcmax (Qcabs a) (Qcabs b))%Qc).
      { apply Qcnot_lt_le. intros Hlt. apply (Qcle_not_lt _ _ Hrel).
        apply Qclt_div_iff; assumption. }
      revert Hle. apply Qcmax_case; intros _ Hle; [left|right]; exact Hle.
Qed.

(** C8: [checkEnergyBalance] compares the power of the blocks, in MW,
    with the power of the core in MW divided by the power multiplier, and
    raises [ValueError] exactly when their relative difference exceeds
    [1e-5] (exact arithmetic). In binary64, 100.0009 MW generated against
    100 MW specified passes and 100.2 MW generated fails. *)
Theorem checkEnergyBalance_tolerance :
  (forall (setPowerIfNecessary : Core Qc -> Core Qc) (core : Core Qc),
      let core' := setPowerIfNecessary core in
      let powerGenerated := (calcTotalPower core / Qc_of_frac 1000000 1)%Qc in
      let specifiedPower :=
        (core_power core' / Qc_of_frac 1000000 1 / powerMultiplier core')%Qc in
      powerMultiplier core' <> 0%Qc ->
      (snd (checkEnergyBalance setPowerIfNecessary core) = Raise ValueError
       <-> (Qc_of_frac 1 100000
            < relativeDifference powerGenerated specifiedPower)%Qc)
      /\ (snd (checkEnergyBalance setPowerIfNecessary core) = Ok tt
          <-> (relativeDifference powerGenerated specifiedPower
               <= Qc_of_frac 1 100000)%Qc))
  /\ (let core := exampleCore 60000000%float 40000900%float 100e6%float 1%float in
      ndiv (calcTotalPower core) WATTS_PER_MW = 100.0009%float
      /\ snd (checkEnergyBalance id core) = Ok tt)
  /\ (let core := exampleCore 60000000%float 40200000%float 100e6%float 1%float in
      ndiv (calcTotalPower core) WATTS_PER_MW = 100.2%float
      /\ snd (checkEnergyBalance id core) = Raise ValueError).
Proof.
  split; [|split; split; reflexivity].
  intros setPower core core' powerGenerated specifiedPower Hmult.
  unfold checkEnergyBalance. fold core'.
  unfold pydiv. cbn [neqb ndiv zero WATTS_PER_MW Qc_num].
  rewrite bool_decide_eq_false_2 by exact Hmult.
  fold powerGenerated specifiedPower.
  pose proof (isclose_relativeDifference powerGenerated specifiedPower) as Hclose.
  destruct (isclose powerGenerated specifiedPower ENERGY_BALANCE_REL_TOL);
    cbn [negb snd].
  - assert (Hle : (relativeDifference powerGenerated specifiedPower
                   <= Qc_of_frac 1 100000)%Qc) by (apply Hclose; reflexivity).
    split; split; intros Hres; try discriminate; try exact Hle; try reflexivity.
    exfalso. exact (Qcle_not_lt _ _ Hle Hres).
  - assert (Hlt : (Qc_of_frac 1 100000
                   < relativeDifference powerGenerated specifiedPower)%Qc).
    { apply Qcnot_le_lt. intros Hle. apply Hclose in Hle. discriminate. }
    split; split; intros Hres; try discriminate; try exact Hlt; try reflexivity.
    exfalso. exact (Qcle_not_lt _ _ Hres Hlt).
Qed.

Lemma checkEnergyBalance_tolerance_witness :
  let core :=
    exampleCore (Qc_of_frac 60000000 1) (Qc_of_frac 40000900 1)
      (Qc_of_frac 300000000 1) (Qc_of_frac 3 1) in
  snd (checkEnergyBalance id core) = Ok tt
  <-> (relativeDifference
         (calcTotalPower core / Qc_of_frac 1000000 1)
         (core_power core / Qc_of_frac 1000000 1 / powerMultiplier core)
       <= Qc_of_frac 1 100000)%Qc.
Proof.
  intros core.
  apply (proj1 checkEnergyBalance_tolerance id core). discriminate.
Defined.

(** ** The geometry transformations *)

Ltac run_action :=
  unfold _performGeometryTransformations, _undoGeometryTransformations, run,
    bind, getState, modify, liftResult, pure, raise, updateModel in *.

Section ExecuterFacts.
Context {Model Keff : Type}.
Variable uniformMeshConvert : GlobalFluxOptions -> Model -> result Model.
Variable plotConvertedReactor : Model -> result unit.
Variable addEdgeAssemblies : Model -> result Model.
Variable scaleParamsRelatedToSymmetry : option (list string) -> Model -> result Model.
Variable removeEdgeAssemblies : Model -> result Model.
Variable applyStateToOriginal : Model -> Model -> result Model.
Variable solveFlux : GlobalFluxOptions -> Model -> result (Model * Keff).

Local Abbreviation perform :=
  (_performGeometryTransformations uniformMeshConvert plotConvertedReactor
     addEdgeAssemblies).
Local Abbreviation undo :=
  (_undoGeometryTransformations scaleParamsRelatedToSymmetry
     removeEdgeAssemblies applyStateToOriginal).

Lemma anyKey_true (cs : gmap string GeometryConverter) (k : string)
    (c : GeometryConverter) :
  cs !! k = Some c -> k <> "" -> anyKey cs = true.
Proof.
  intros Hk Hne. unfold anyKey. apply bool_decide_eq_true.
  apply list.Exists_exists. exists k. split; [|exact Hne].
  apply elem_of_elements, elem_of_dom. eauto.
Qed.

Lemma anyKey_empty : anyKey ∅ = false.
Proof. reflexivity. Qed.

(** The guard at the head of [_performGeometryTransformations] *)
Lemma perform_guard (makePlots : bool) (self : Executer Model) :
  anyKey (geomConverters self) = true ->
  perform makePlots self = (self, Raise RuntimeError).
Proof.
  intros Hany. unfold _performGeometryTransformations, bind, getState.
  rewrite Hany. reflexivity.
Qed.

(** What a completed apply step leaves in the registry *)
Lemma perform_registers (makePlots : bool) (self self' : Executer Model) :
  geomConverters self = ∅ ->
  perform makePlots self = (self', Ok tt) ->
  options self' = options self
  /\ (optTruthy (detailedAxialExpansion (options self))
      || optTruthy (hasNonUniformAssems (options self)) = true ->
      geomConverters self' !! "axial"
      = Some (UniformMeshConverter (r self) (nextRef self)))
  /\ (edgeAssembliesAreNeeded (options self) = Ok true ->
      geomConverters self' !! "edgeAssems" = Some EdgeAssemblyChanger).
Proof.
  intros Hempty. run_action. rewrite Hempty, anyKey_empty, lookup_empty.
  intros Hrun.
  repeat case_match; simplify_eq; cbn in *;
    repeat split; try congruence; intros; simplify_eq;
    rewrite ?Hempty in *; simplify_map_eq; try done.
Qed.

(** The restore step on an empty registry does nothing. *)
Lemma undo_empty (self : Executer Model) :
  geomConverters self = ∅ -> undo self = (self, Ok tt).
Proof.
  intros Hempty. run_action. rewrite Hempty, !lookup_empty.
  destruct self; cbn in *. rewrite Hempty. reflexivity.
Qed.

Lemma undo_clears (self self' : Executer Model) :
  undo self = (self', Ok tt) -> geomConverters self' = ∅.
Proof.
  run_action. intros Hrun.
  repeat case_match; simplify_eq; reflexivity.
Qed.

(** C1, amended: when a converter is registered (under any key that
    [any] counts, such as ["axial"] and ["edgeAssems"]) the apply step
    raises [RuntimeError] and changes nothing; and when a first apply
    step, started on an empty registry, has returned with options that
    make it register a converter (detailed axial expansion or
    non-uniform assemblies, or edge assemblies needed), a second apply
    step without a restore in between raises [RuntimeError]. *)
Theorem perform_twice_fatal :
  (forall (makePlots : bool) (self : Executer Model) (k : string)
          (c : GeometryConverter),
      geomConverters self !! k = Some c -> k <> "" ->
      perform makePlots self = (self, Raise RuntimeError))
  /\ (forall (makePlots makePlots' : bool) (self self' : Executer Model),
      geomConverters self = ∅ ->
      perform makePlots self = (self', Ok tt) ->
      optTruthy (detailedAxialExpansion (options self))
      || optTruthy (hasNonUniformAssems (options self)) = true
      \/ edgeAssembliesAreNeeded (options self) = Ok true ->
      perform makePlots' self' = (self', Raise RuntimeError)).
Proof.
  split.
  - intros makePlots self k c Hk Hne.
    apply perform_guard. eapply anyKey_true; eassumption.
  - intros makePlots makePlots' self self' Hempty Hrun Hwants.
    destruct (perform_registers _ _ _ Hempty Hrun) as (_ & Haxial & Hedge).
    apply perform_guard.
    destruct Hwants as [Hwants|Hwants].
    + eapply anyKey_true; [exact (Haxial Hwants) | discriminate].
    + eapply anyKey_true; [exact (Hedge Hwants) | discriminate].
Qed.

(** C3: a restore step that returns leaves the registry empty, whatever
    it held, and a second restore step right after it returns as well
    and changes nothing. *)
Theorem undo_idempotent (self self' : Executer Model) :
  undo self = (self', Ok tt) ->
  geomConverters self' = ∅ /\ undo self' = (self', Ok tt).
Proof.
  intros Hrun. apply undo_clears in Hrun.
  split; [exact Hrun | apply undo_empty, Hrun].
Qed.

(** C2, amended: take a run that starts on an empty registry with
    detailed axial expansion on, no non-uniform assemblies and
    [applyResultsToReactor = False], so that the solver works on a
    converted copy. If the run returns, every reactor object that
    existed before it is as it was (the original among them: the
    reference of the copy is fresh), the executer points at the original
    again, the registry is empty, and the eigenvalue returned is the one
    the solver gave on the transformed copy. *)
Theorem run_discards (self self' : Executer Model) (keff : Keff) :
  geomConverters self = ∅ ->
  r self <> nextRef self ->
  optTruthy (detailedAxialExpansion (options self)) = true ->
  optTruthy (hasNonUniformAssems (options self)) = false ->
  applyResultsToReactor (options self) = false ->
  run uniformMeshConvert plotConvertedReactor addEdgeAssemblies
    scaleParamsRelatedToSymmetry removeEdgeAssemblies applyStateToOriginal
    solveFlux self = (self', Ok keff) ->
  reactors self' (r self) = reactors self (r self)
  /\ (forall ref : ReactorRef, ref <> nextRef self ->
        reactors self' ref = reactors self ref)
  /\ r self' = r self
  /\ geomConverters self' = ∅
  /\ exists conv transformed solved : Model,
      uniformMeshConvert (options self) (reactors self (r self)) = Ok conv
      /\ (transformed = conv \/ addEdgeAssemblies conv = Ok transformed)
      /\ solveFlux (options self) transformed = Ok (solved, keff).
Proof.
  intros Hempty Hfresh Haxial Hnon Happly Hrun.
  unfold run in Hrun. run_action. cbn beta iota in Hrun.
  rewrite Hempty, anyKey_empty, lookup_empty, Haxial in Hrun.
  cbn [orb] in Hrun.
  repeat case_match; simplify_eq; cbn in *.
  all: simplify_map_eq.
  all: rewrite ?Hnon, ?Happly in *; cbn in *.
  all: repeat case_match; simplify_eq; cbn in *.
  all: rewrite ?fn_lookup_insert in *.
  all: (split; [rewrite !fn_lookup_insert_ne by congruence; reflexivity|]).
  all: (split; [intros ref Href;
                rewrite !fn_lookup_insert_ne by congruence; reflexivity|]).
  all: (split; [reflexivity|split; [reflexivity|]]).
  all: match goal with
       | solvedKeff : (Model * Keff)%type |- _ =>
           destruct solvedKeff as [solved keff']
       end; cbn [fst snd] in *; eauto 10.
Qed.

End ExecuterFacts.

(** C1, as stated, fails: with options that request no transformation
    the first apply step registers nothing, and the second one returns
    normally. *)
Lemma perform_twice_counterexample :
  let opts := exampleOptions "DIF3D-Nodal" fullCore (Some false) (Some false) true in
  let self := exampleExecuter opts in
  let self' := fst (examplePerform self) in
  snd (examplePerform self) = Ok tt
  /\ geomConverters self' = ∅
  /\ snd (examplePerform self') = Ok tt.
Proof. vm_compute. repeat split. Qed.

Lemma perform_twice_fatal_witness :
  let opts := exampleOptions "DIF3D-FD" thirdPeriodic (Some true) None true in
  let self := exampleExecuter opts in
  let self' := fst (examplePerform self) in
  examplePerform self' = (self', Raise RuntimeError).
Proof.
  intros opts self self'.
  refine (proj2 (perform_twice_fatal exampleConvert examplePlot exampleAddEdge)
            false false self self' _ _ _).
  - reflexivity.
  - vm_compute. reflexivity.
  - left. reflexivity.
Defined.

Lemma undo_idempotent_witness :
  let opts := exampleOptions "DIF3D-FD" thirdPeriodic (Some true) None true in
  exists self1 self2 : Executer nat,
    examplePerform (exampleExecuter opts) = (self1, Ok tt)
    /\ size (geomConverters self1) = 2
    /\ exampleUndo self1 = (self2, Ok tt)
    /\ geomConverters self2 = ∅
    /\ exampleUndo self2 = (self2, Ok tt).
Proof.
  intros opts.
  destruct (examplePerform (exampleExecuter opts)) as [self1 res1] eqn:Hperform.
  destruct (exampleUndo self1) as [self2 res2] eqn:Hundo.
  assert (Hres1 : res1 = Ok tt).
  { apply (f_equal snd) in Hperform. cbn [snd] in Hperform. rewrite <- Hperform.
    vm_compute. reflexivity. }
  assert (Hsize : size (geomConverters self1) = 2).
  { apply (f_equal fst) in Hperform. cbn [fst] in Hperform. rewrite <- Hperform.
    vm_compute. reflexivity. }
  assert (Hres2 : res2 = Ok tt).
  { apply (f_equal snd) in Hundo. cbn [snd] in Hundo. rewrite <- Hundo.
    apply (f_equal fst) in Hperform. cbn [fst] in Hperform. rewrite <- Hperform.
    vm_compute. reflexivity. }
  subst res1 res2.
  destruct (undo_idempotent exampleScale exampleRemoveEdge exampleApplyState
              self1 self2 Hundo) as [Hempty Hagain].
  exists self1, self2. auto.
Defined.


(** C2, as stated, fails. With non-uniform assemblies the restore step
    applies the state of the converted reactor to the original although
    [applyResultsToReactor] is false: the number of the original goes
    from 0 to 1. Without any conversion the executer keeps working on the
    original itself, which the solver then writes. *)
Lemma run_discards_counterexample :
  (let opts := exampleOptions "DIF3D-Nodal" fullCore None (Some true) false in
   let self := exampleExecuter opts in
   let self' := fst (exampleRun self) in
   snd (exampleRun self) = Ok 7
   /\ reactors self (r self) = 0
   /\ reactors self' (r self) = 1)
  /\ (let opts := exampleOptions "DIF3D-Nodal" fullCore (Some false) (Some false) false in
      let self := exampleExecuter opts in
      let self' := fst (exampleRun self) in
      snd (exampleRun self) = Ok 7
      /\ reactors self (r self) = 0
      /\ reactors self' (r self) = 1).
Proof. vm_compute. repeat split. Qed.

Lemma run_discards_witness :
  let opts := exampleOptions "DIF3D-FD" thirdPeriodic (Some true) None false in
  let self := exampleExecuter opts in
  let self' := fst (exampleRun self) in
  snd (exampleRun self) = Ok 7
  /\ reactors self' (r self) = reactors self (r self)
  /\ r self' = r self
  /\ geomConverters self' = ∅.
Proof.
  intros opts self self'.
  assert (Hrun : exampleRun self = (self', Ok 7)) by (vm_compute; reflexivity).
  split; [rewrite Hrun; reflexivity|].
  destruct (run_discards exampleConvert examplePlot exampleAddEdge exampleScale
              exampleRemoveEdge exampleApplyState exampleSolve self self' 7)
    as (Horiginal & _ & Hr & Hregistry & _);
    [reflexivity | discriminate | reflexivity | reflexivity | reflexivity
    | exact Hrun | auto].
Defined.

(** ** [updateFluenceAndDpa] *)

Section DoseFacts.
Context {F : Type} `{Num F}.
Variable burnupPeakingFactor : F.
Variable dpaPerFluence : option F.
Variable updateMaxDpaParams : DoseReactor F -> result (gmap string F).
Variable updateCycleDoseParams : DoseReactor F -> result (gmap string F).
Variable updateLoadpadDose : DoseReactor F -> result (gmap string F).

Local Abbreviation update :=
  (updateFluenceAndDpa burnupPeakingFactor dpaPerFluence updateMaxDpaParams
     updateCycleDoseParams updateLoadpadDose).

(** C10: [None] and the empty list both stand for the blocks of the
    core, so a call with the empty list is a call on the blocks of the
    core; and when the block list that results is empty, the call
    raises [IndexError] at [blockList[0]] and changes nothing. *)
Theorem updateFluenceAndDpa_empty_blockList :
  (forall rx : DoseReactor F,
      effectiveBlockList None rx = core_getBlocks rx
      /\ effectiveBlockList (Some []) rx = core_getBlocks rx)
  /\ (forall (stepTimeInSeconds : F) (rx : DoseReactor F),
        update stepTimeInSeconds (Some []) rx
        = update stepTimeInSeconds (Some (core_getBlocks rx)) rx)
  /\ (forall (stepTimeInSeconds : F) (blockList : option (list BlockId))
             (rx : DoseReactor F),
        effectiveBlockList blockList rx = [] ->
        update stepTimeInSeconds blockList rx = (rx, Raise IndexError))
  /\ (forall (stepTimeInSeconds : F) (rx : DoseReactor F),
        core_getBlocks rx = [] ->
        update stepTimeInSeconds None rx = (rx, Raise IndexError)
        /\ update stepTimeInSeconds (Some []) rx = (rx, Raise IndexError)).
Proof.
  assert (Hraise : forall (stepTimeInSeconds : F)
                     (blockList : option (list BlockId)) (rx : DoseReactor F),
             effectiveBlockList blockList rx = [] ->
             update stepTimeInSeconds blockList rx = (rx, Raise IndexError)).
  { intros dt blockList rx Hempty.
    unfold updateFluenceAndDpa, bind, getState. rewrite Hempty. reflexivity. }
  split; [|split; [|split]].
  - intros rx. split; reflexivity.
  - intros dt rx. unfold updateFluenceAndDpa, bind, getState.
    cbn [effectiveBlockList]. destruct (core_getBlocks rx); reflexivity.
  - exact Hraise.
  - intros dt rx Hcore. split; apply Hraise; exact Hcore.
Qed.

End DoseFacts.

Lemma updateFluenceAndDpa_empty_blockList_witness :
  let rx := exampleDoseReactor [] in
  exampleUpdateFluenceAndDpa (Qc_of_frac 3 1) (Some []) rx = (rx, Raise IndexError).
Proof.
  intros rx.
  apply (proj2 (proj2 (proj2 (updateFluenceAndDpa_empty_blockList
           (Qc_of_frac 0 1) None exampleSummary exampleSummary exampleSummary)))
           (Qc_of_frac 3 1) rx).
  reflexivity.
Defined.

(** *** Monotonic accumulation, in exact arithmetic *)

Lemma doseLe_refl (d : BlockDoseParams Qc) : doseLe d d.
Proof. unfold doseLe. repeat split; apply Qcle_refl. Qed.

Lemma doseLe_trans (d1 d2 d3 : BlockDoseParams Qc) :
  doseLe d1 d2 -> doseLe d2 d3 -> doseLe d1 d3.
Proof.
  unfold doseLe. intros (H1 & H2 & H3 & H4) (K1 & K2 & K3 & K4).
  repeat split; eapply Qcle_trans; eassumption.
Qed.

Lemma fluenceLe_refl (d : BlockDoseParams Qc) : fluenceLe d d.
Proof. unfold fluenceLe. repeat split; apply Qcle_refl. Qed.

Lemma fluenceLe_trans (d1 d2 d3 : BlockDoseParams Qc) :
  fluenceLe d1 d2 -> fluenceLe d2 d3 -> fluenceLe d1 d3.
Proof.
  unfold fluenceLe. intros (H1 & H2 & H3) (K1 & K2 & K3).
  repeat split; eapply Qcle_trans; eassumption.
Qed.

Lemma doseGrows_refl (rx : DoseReactor Qc) : doseGrows rx rx.
Proof.
  intros b. split; [reflexivity|].
  split; intros _; [apply doseLe_refl | apply fluenceLe_refl].
Qed.

Lemma doseGrows_trans (rx1 rx2 rx3 : DoseReactor Qc) :
  doseGrows rx1 rx2 -> doseGrows rx2 rx3 -> doseGrows rx1 rx3.
Proof.
  intros H12 H23 b.
  destruct (H12 b) as (Hf12 & Hd12 & Hn12), (H23 b) as (Hf23 & Hd23 & Hn23).
  split; [congruence|]. split; intros Hnonneg.
  - eapply doseLe_trans; [apply Hd12, Hnonneg|].
    apply Hd23. rewrite Hf12. exact Hnonneg.
  - eapply fluenceLe_trans; [apply Hn12, Hnonneg|].
    apply Hn23. rewrite Hf12. exact Hnonneg.
Qed.

(** A step that leaves the blocks alone *)
Lemma doseGrows_same_blocks (rx rx' : DoseReactor Qc) :
  blocks rx' = blocks rx -> doseGrows rx rx'.
Proof. intros Hblocks b. rewrite Hblocks. apply doseGrows_refl. Qed.

Section Grows.
Context {A B : Type}.

Lemma growsAt_bind (c : action (DoseReactor Qc) A)
    (k : A -> action (DoseReactor Qc) B) (rx : DoseReactor Qc) :
  growsAt c rx ->
  (forall a rx1, c rx = (rx1, Ok a) -> growsAt (k a) rx1) ->
  growsAt (bind c k) rx.
Proof.
  intros Hc Hk rx' res. unfold bind.
  destruct (c rx) as [rx1 [a|e]] eqn:Hcrx.
  - intros Hka. eapply doseGrows_trans; [eapply Hc; exact Hcrx|].
    eapply Hk; [reflexivity | exact Hka].
  - intros [= <- <-]. eapply Hc; exact Hcrx.
Qed.

Lemma growsAt_pure (a : A) (rx : DoseReactor Qc) : growsAt (pure a) rx.
Proof. intros rx' res [= <- <-]. apply doseGrows_refl. Qed.

Lemma growsAt_raise (e : exn) (rx : DoseReactor Qc) :
  growsAt (raise (A := A) e) rx.
Proof. intros rx' res [= <- <-]. apply doseGrows_refl. Qed.

Lemma growsAt_liftResult (c : result A) (rx : DoseReactor Qc) :
  growsAt (liftResult c) rx.
Proof. intros rx' res [= <- <-]. apply doseGrows_refl. Qed.

End Grows.

Lemma growsAt_getState (rx : DoseReactor Qc) : growsAt getState rx.
Proof. intros rx' res [= <- <-]. apply doseGrows_refl. Qed.

Lemma growsAt_modify (f : DoseReactor Qc -> DoseReactor Qc)
    (rx : DoseReactor Qc) :
  doseGrows rx (f rx) -> growsAt (modify f) rx.
Proof. intros Hf rx' res [= <- <-]. exact Hf. Qed.

(** An assignment to dose parameters of one block *)
Lemma growsAt_modifyDose (b : BlockId)
    (f : BlockDoseParams Qc -> BlockDoseParams Qc) (rx : DoseReactor Qc) :
  (nonnegativeRates (fluxParams (blocks rx b)) ->
   doseLe (doseParams (blocks rx b)) (f (doseParams (blocks rx b)))) ->
  (nonnegativeFlux (fluxParams (blocks rx b)) ->
   fluenceLe (doseParams (blocks rx b)) (f (doseParams (blocks rx b)))) ->
  growsAt (modifyDose b f) rx.
Proof.
  intros Hdose Hfluence. apply growsAt_modify. intros b'. cbn [blocks setBlocks].
  destruct (decide (b = b')) as [<-|Hne].
  - rewrite fn_lookup_insert. cbn [fluxParams doseParams setDose].
    split; [reflexivity | split; assumption].
  - rewrite fn_lookup_insert_ne by exact Hne. apply doseGrows_refl.
Qed.

Lemma growsAt_modifyDose_keeps (b : BlockId)
    (f : BlockDoseParams Qc -> BlockDoseParams Qc) (rx : DoseReactor Qc) :
  keepsDose f -> growsAt (modifyDose b f) rx.
Proof.
  intros Hkeeps. apply growsAt_modifyDose; intros _; apply Hkeeps.
Qed.

Ltac keeps_dose :=
  intros d; unfold doseLe, fluenceLe; cbn; repeat split; apply Qcle_refl.

Lemma setPointsCornerDpa_keeps (v : option (list Qc)) :
  keepsDose (setPointsCornerDpa v).
Proof. keeps_dose. Qed.

Lemma setPointsEdgeDpa_keeps (v : option (list Qc)) :
  keepsDose (setPointsEdgeDpa v).
Proof. keeps_dose. Qed.

Lemma setDpaPeakFromFluence_keeps (f : BlockDoseParams Qc -> Qc) :
  keepsDose (fun d => setDpaPeakFromFluence (f d) d).
Proof. keeps_dose. Qed.

Lemma setPercentBuPeak_keeps (f : BlockDoseParams Qc -> Qc) :
  keepsDose (fun d => setPercentBuPeak (f d) d).
Proof. keeps_dose. Qed.

(** The accumulation itself: the increments are products of non-negative
    numbers. *)
Lemma Qcle_plus_nonneg (x y : Qc) : (0 <= y)%Qc -> (x <= x + y)%Qc.
Proof.
  intros Hy. pose proof (Qcplus_le_compat x x 0 y (Qcle_refl x) Hy) as Hle.
  rewrite Qcplus_0_r in Hle. exact Hle.
Qed.

Lemma Qcmult_nonneg (x y : Qc) : (0 <= x)%Qc -> (0 <= y)%Qc -> (0 <= x * y)%Qc.
Proof.
  intros Hx Hy. pose proof (Qcmult_le_compat_r 0 x y Hx Hy) as Hle.
  rewrite Qcmult_0_l in Hle. exact Hle.
Qed.

Lemma accumulateDose_dose (stepTimeInSeconds : Qc) (fp : BlockFluxParams Qc)
    (d : BlockDoseParams Qc) :
  (0 <= stepTimeInSeconds)%Qc -> nonnegativeRates fp ->
  doseLe d (accumulateDose stepTimeInSeconds fp d).
Proof.
  intros Hdt [Hrate Hpeak]. unfold doseLe, accumulateDose.
  cbn [detailedDpa detailedDpaPeak detailedDpaThisCycle residence].
  unfold_Qc. cbn [SECONDS_PER_DAY Qc_num].
  repeat split; apply Qcle_plus_nonneg; try (apply Qcmult_nonneg; assumption).
  unfold Qcdiv. apply Qcmult_nonneg; [exact Hdt | discriminate].
Qed.

Lemma accumulateDose_fluence (stepTimeInSeconds : Qc) (fp : BlockFluxParams Qc)
    (d : BlockDoseParams Qc) :
  (0 <= stepTimeInSeconds)%Qc -> nonnegativeFlux fp ->
  fluenceLe d (accumulateDose stepTimeInSeconds fp d).
Proof.
  intros Hdt (Hflux & Hpeak & Hfast). unfold fluenceLe, accumulateDose.
  cbn [fluence fastFluence fastFluencePeak]. unfold_Qc.
  repeat split; apply Qcle_plus_nonneg; repeat apply Qcmult_nonneg; assumption.
Qed.

Ltac grow :=
  repeat first
    [ apply growsAt_pure
    | apply growsAt_raise
    | apply growsAt_liftResult
    | apply growsAt_getState
    | apply growsAt_modify; apply doseGrows_same_blocks; reflexivity
    | apply growsAt_modifyDose_keeps;
      first [ apply setPointsCornerDpa_keeps
            | apply setPointsEdgeDpa_keeps
            | apply setDpaPeakFromFluence_keeps
            | apply (setPercentBuPeak_keeps (fun _ => _))
            | apply setPercentBuPeak_keeps ]
    | apply growsAt_bind; [|intros ? ? ?]
    | case_match ].

Section DoseMonotonic.
Variable burnupPeakingFactor : Qc.
Variable dpaPerFluence : option Qc.
Variable updateMaxDpaParams : DoseReactor Qc -> result (gmap string Qc).
Variable updateCycleDoseParams : DoseReactor Qc -> result (gmap string Qc).
Variable updateLoadpadDose : DoseReactor Qc -> result (gmap string Qc).
Variable stepTimeInSeconds : Qc.
Hypothesis stepTime_nonnegative : (0 <= stepTimeInSeconds)%Qc.

Lemma updatePointDpa_grows
    (getRate : BlockFluxParams Qc -> option (list Qc))
    (getDpa : BlockDoseParams Qc -> option (list Qc))
    (setDpa : option (list Qc) -> BlockDoseParams Qc -> BlockDoseParams Qc)
    (b : BlockId) (rx : DoseReactor Qc) :
  (forall v, keepsDose (setDpa v)) ->
  growsAt (updatePointDpa getRate getDpa setDpa stepTimeInSeconds b) rx.
Proof.
  intros Hset. unfold updatePointDpa.
  repeat first
    [ apply growsAt_modifyDose_keeps; apply Hset
    | progress grow ].
Qed.

Lemma updatePercentBuPeak_grows (b : BlockId) (rx : DoseReactor Qc) :
  growsAt (updatePercentBuPeak burnupPeakingFactor stepTimeInSeconds b) rx.
Proof. unfold updatePercentBuPeak. grow. Qed.

Lemma updateBlock_grows (b : BlockId) (rx : DoseReactor Qc) :
  growsAt (updateBlock burnupPeakingFactor dpaPerFluence stepTimeInSeconds b) rx.
Proof using stepTime_nonnegative.
  unfold updateBlock.
  apply growsAt_bind; [apply growsAt_getState|].
  intros rx0 rx1 [= <- <-].
  apply growsAt_bind.
  { apply growsAt_modifyDose; intros Hnonneg;
      [apply accumulateDose_dose | apply accumulateDose_fluence]; assumption. }
  intros _ rx1 _.
  apply growsAt_bind;
    [apply updatePointDpa_grows, setPointsCornerDpa_keeps|].
  intros _ rx2 _.
  apply growsAt_bind;
    [apply updatePointDpa_grows, setPointsEdgeDpa_keeps|].
  intros _ rx3 _.
  apply growsAt_bind; [grow|].
  intros _ rx4 _. apply updatePercentBuPeak_grows.
Qed.

Lemma forBlocks_grows (blockList : list BlockId) (rx : DoseReactor Qc) :
  growsAt (forBlocks burnupPeakingFactor dpaPerFluence stepTimeInSeconds
             blockList) rx.
Proof using stepTime_nonnegative.
  revert rx. induction blockList as [|b blockList IH]; intros rx;
    cbn [forBlocks].
  - apply growsAt_pure.
  - apply growsAt_bind; [apply updateBlock_grows|].
    intros _ rx1 _. apply IH.
Qed.

Lemma coreSummary_grows (f : DoseReactor Qc -> result (gmap string Qc))
    (rx : DoseReactor Qc) :
  growsAt (coreSummary f) rx.
Proof. unfold coreSummary. grow. Qed.

Lemma updateFluenceAndDpa_grows (blockList : option (list BlockId))
    (rx : DoseReactor Qc) :
  growsAt (updateFluenceAndDpa burnupPeakingFactor dpaPerFluence
             updateMaxDpaParams updateCycleDoseParams updateLoadpadDose
             stepTimeInSeconds blockList) rx.
Proof using stepTime_nonnegative.
  unfold updateFluenceAndDpa.
  apply growsAt_bind; [apply growsAt_getState|].
  intros rx0 rx1 [= <- <-].
  destruct (effectiveBlockList blockList rx) as [|first rest];
    [apply growsAt_raise|].
  apply growsAt_bind; [grow|]. intros _ rx1 _.
  apply growsAt_bind; [apply forBlocks_grows|]. intros _ rx2 _.
  apply growsAt_bind; [grow|]. intros _ rx3 _.
  apply growsAt_bind; [apply coreSummary_grows|]. intros _ rx4 _.
  apply growsAt_bind; [apply coreSummary_grows|]. intros _ rx5 _.
  apply coreSummary_grows.
Qed.

End DoseMonotonic.

(** C9, as stated, fails for the fluence fields: non-negative dpa rates
    and a non-negative step do not keep the fluence of a block with a
    negative flux from decreasing. *)
Lemma updateFluenceAndDpa_fluence_counterexample :
  let rx := exampleDoseReactor [1] in
  let stepTimeInSeconds := Qc_of_frac 3 1 in
  let rx' := fst (exampleUpdateFluenceAndDpa stepTimeInSeconds None rx) in
  snd (exampleUpdateFluenceAndDpa stepTimeInSeconds None rx) = Ok tt
  /\ (0 <= stepTimeInSeconds)%Qc
  /\ (0 <= detailedDpaRate (fluxParams (blocks rx 1)))%Qc
  /\ (0 <= detailedDpaPeakRate (fluxParams (blocks rx 1)))%Qc
  /\ (fluence (doseParams (blocks rx' 1))
      < fluence (doseParams (blocks rx 1)))%Qc.
Proof. vm_compute. repeat split; discriminate. Qed.

(** C9, amended: after [updateFluenceAndDpa], whether it returned or
    raised, a block whose stored dpa rates are non-negative has a
    [detailedDpa], a [detailedDpaPeak], a [detailedDpaThisCycle] and a
    residence time at least as large as before, given a non-negative step
    time; and a block whose flux, peak flux and fast-flux fraction are
    non-negative has a fluence, a fast fluence and a peak fast fluence at
    least as large as before. This holds for every block, in the block
    list (once or several times) or not. Exact arithmetic. *)
Theorem updateFluenceAndDpa_monotonic
    (burnupPeakingFactor : Qc) (dpaPerFluence : option Qc)
    (updateMaxDpaParams updateCycleDoseParams updateLoadpadDose :
       DoseReactor Qc -> result (gmap string Qc))
    (stepTimeInSeconds : Qc) (blockList : option (list BlockId))
    (rx rx' : DoseReactor Qc) (res : result unit) (b : BlockId) :
  (0 <= stepTimeInSeconds)%Qc ->
  updateFluenceAndDpa burnupPeakingFactor dpaPerFluence updateMaxDpaParams
    updateCycleDoseParams updateLoadpadDose stepTimeInSeconds blockList rx
  = (rx', res) ->
  let fp := fluxParams (blocks rx b) in
  let d := doseParams (blocks rx b) in
  let d' := doseParams (blocks rx' b) in
  ((0 <= detailedDpaRate fp)%Qc -> (0 <= detailedDpaPeakRate fp)%Qc ->
   (detailedDpa d <= detailedDpa d')%Qc
   /\ (detailedDpaPeak d <= detailedDpaPeak d')%Qc
   /\ (detailedDpaThisCycle d <= detailedDpaThisCycle d')%Qc
   /\ (residence d <= residence d')%Qc)
  /\ ((0 <= flux fp)%Qc -> (0 <= fluxPeak fp)%Qc -> (0 <= fastFluxFr fp)%Qc ->
      (fluence d <= fluence d')%Qc
      /\ (fastFluence d <= fastFluence d')%Qc
      /\ (fastFluencePeak d <= fastFluencePeak d')%Qc).
Proof.
  intros Hdt Hcall fp d d'.
  destruct (updateFluenceAndDpa_grows burnupPeakingFactor dpaPerFluence
              updateMaxDpaParams updateCycleDoseParams updateLoadpadDose
              stepTimeInSeconds Hdt blockList rx rx' res Hcall b)
    as (_ & Hdose & Hfluence).
  split.
  - intros Hrate Hpeak. apply Hdose. split; assumption.
  - intros Hflux Hpeak Hfast. apply Hfluence. repeat split; assumption.
Qed.

(** The block 0 is listed twice and is updated twice: its dpa goes from 5
    to 5 + 2 * 3 + 2 * 3. *)
Lemma updateFluenceAndDpa_monotonic_witness :
  let rx := exampleDoseReactor [] in
  let stepTimeInSeconds := Qc_of_frac 3 1 in
  let rx' := fst (exampleUpdateFluenceAndDpa stepTimeInSeconds (Some [0; 0]) rx) in
  detailedDpa (doseParams (blocks rx 0)) = Qc_of_frac 5 1
  /\ detailedDpa (doseParams (blocks rx' 0)) = Qc_of_frac 17 1
  /\ (detailedDpa (doseParams (blocks rx 0))
      <= detailedDpa (doseParams (blocks rx' 0)))%Qc
  /\ (fluence (doseParams (blocks rx 0))
      <= fluence (doseParams (blocks rx' 0)))%Qc.
Proof.
  intros rx stepTimeInSeconds rx'.
  destruct (updateFluenceAndDpa_monotonic (Qc_of_frac 0 1) None exampleSummary
              exampleSummary exampleSummary stepTimeInSeconds (Some [0; 0])
              rx rx' (Ok tt) 0) as [Hdose Hfluence].
  - discriminate.
  - vm_compute. reflexivity.
  - split; [reflexivity|]. split.
    + apply Qc_is_canon. vm_compute. reflexivity.
    + split.
      * apply Hdose; discriminate.
      * apply Hfluence; discriminate.
Defined.

(** * Further properties *)

(** ** The geometry transformations, continued *)

Ltac crush_action :=
  repeat case_match; simplify_eq; cbn in *;
  try simplify_map_eq; cbn in *;
  repeat case_match; simplify_eq; cbn in *.

Section ExecuterMore.
Context {Model Keff : Type}.
Variable uniformMeshConvert : GlobalFluxOptions -> Model -> result Model.
Variable plotConvertedReactor : Model -> result unit.
Variable addEdgeAssemblies : Model -> result Model.
Variable scaleParamsRelatedToSymmetry : option (list string) -> Model -> result Model.
Variable removeEdgeAssemblies : Model -> result Model.
Variable applyStateToOriginal : Model -> Model -> result Model.

Local Abbreviation perform :=
  (_performGeometryTransformations uniformMeshConvert plotConvertedReactor
     addEdgeAssemblies).
Local Abbreviation undo :=
  (_undoGeometryTransformations scaleParamsRelatedToSymmetry
     removeEdgeAssemblies applyStateToOriginal).

(** X1: an apply step from an empty registry followed by a restore step,
    both returning, brings the executer back: it points at the reactor
    it started with, the registry is empty, the options are the same, and
    no reactor object other than that reactor and the converted copy has
    changed. *)
Theorem perform_undo_round_trip (makePlots : bool)
    (self self1 self2 : Executer Model) :
  geomConverters self = ∅ ->
  perform makePlots self = (self1, Ok tt) ->
  undo self1 = (self2, Ok tt) ->
  r self2 = r self
  /\ geomConverters self2 = ∅
  /\ options self2 = options self
  /\ (forall ref : ReactorRef, ref <> r self -> ref <> nextRef self ->
        reactors self2 ref = reactors self ref).
Proof.
  intros Hempty Hperform Hundo. run_action. cbn beta iota in *.
  rewrite Hempty, anyKey_empty, lookup_empty in Hperform.
  crush_action.
  all: rewrite ?Hempty in *; try simplify_map_eq.
  all: repeat split; try reflexivity.
  all: try (intros ref Hr Hn; rewrite ?fn_lookup_insert_ne by congruence; reflexivity).
Qed.



(** X4: when the edge-assembly stage of an apply step raises after a
    mesh conversion (the test of the options raises, or adding the edge
    assemblies does), the exception leaves the axial converter
    registered and the executer on its original reactor; every further
    apply step then raises [RuntimeError]. *)
Theorem perform_failure_stays_registered (self : Executer Model)
    (conv : Model) (e : exn) :
  geomConverters self = ∅ ->
  optTruthy (detailedAxialExpansion (options self))
  || optTruthy (hasNonUniformAssems (options self)) = true ->
  uniformMeshConvert (options self) (reactors self (r self)) = Ok conv ->
  edgeAssembliesAreNeeded (options self) = Raise e
  \/ (edgeAssembliesAreNeeded (options self) = Ok true
      /\ addEdgeAssemblies conv = Raise e) ->
  exists self1 : Executer Model,
    perform false self = (self1, Raise e)
    /\ geomConverters self1 !! "axial"
       = Some (UniformMeshConverter (r self) (nextRef self))
    /\ r self1 = r self
    /\ forall makePlots : bool,
         perform makePlots self1 = (self1, Raise RuntimeError).
Proof.
  intros Hempty Hwants Hconv Hedge.
  destruct (perform false self) as [self1 res] eqn:Hperform.
  exists self1.
  assert (Hstate : res = Raise e
                   /\ geomConverters self1 !! "axial"
                      = Some (UniformMeshConverter (r self) (nextRef self))
                   /\ r self1 = r self).
  { run_action. cbn beta iota in *.
    rewrite Hempty, anyKey_empty, lookup_empty, Hwants, Hconv in Hperform.
    cbn in Hperform. rewrite Hempty in Hperform.
    destruct Hedge as [Hedge|[Hedge Hadd]]; rewrite Hedge in Hperform;
      cbn in Hperform.
    - simplify_eq. cbn. simplify_map_eq. auto.
    - rewrite lookup_insert_ne, lookup_empty in Hperform by discriminate.
      cbn in Hperform. rewrite fn_lookup_insert, Hadd in Hperform.
      simplify_eq. cbn. simplify_map_eq. auto. }
  destruct Hstate as (-> & Haxial & Hr).
  repeat split; try assumption.
  intros makePlots. apply perform_guard.
  eapply anyKey_true; [exact Haxial | discriminate].
Qed.

(** X5: the restore step undoes the transformations in the opposite
    order. With both converters registered on a converted copy and the
    results to be applied, the edge assemblies are scaled and removed on
    the copy first, and the state then applied to the original is that of
    the copy without its edge assemblies. *)
Theorem undo_reverse_order (self : Executer Model) (source conv : ReactorRef)
    (scaled removed applied : Model) :
  geomConverters self !! "edgeAssems" = Some EdgeAssemblyChanger ->
  geomConverters self !! "axial" = Some (UniformMeshConverter source conv) ->
  r self = conv ->
  source <> conv ->
  applyResultsToReactor (options self)
  || optTruthy (hasNonUniformAssems (options self)) = true ->
  scaleParamsRelatedToSymmetry (paramsToScaleSubset (options self))
    (reactors self conv) = Ok scaled ->
  removeEdgeAssemblies scaled = Ok removed ->
  applyStateToOriginal removed (reactors self source) = Ok applied ->
  exists self2 : Executer Model,
    undo self = (self2, Ok tt)
    /\ reactors self2 source = applied
    /\ reactors self2 conv = removed
    /\ r self2 = source
    /\ geomConverters self2 = ∅.
Proof.
  intros Hedge Haxial Hr Hne Happly Hscale Hremove Happlied.
  eexists. run_action. cbn beta iota.
  rewrite Hedge. cbn. rewrite Hr, Hscale. cbn.
  rewrite fn_lookup_insert, Hremove. cbn.
  rewrite Haxial, Happly. cbn.
  rewrite fn_lookup_insert, !fn_lookup_insert_ne by congruence.
  rewrite Happlied. cbn.
  split; [reflexivity|]. cbn.
  repeat split.
  - apply fn_lookup_insert.
  - rewrite fn_lookup_insert_ne by congruence. apply fn_lookup_insert.
Qed.

End ExecuterMore.

Lemma perform_undo_round_trip_witness :
  let opts := exampleOptions "DIF3D-FD" thirdPeriodic (Some true) None true in
  let self := exampleExecuter opts in
  let self1 := fst (examplePerform self) in
  let self2 := fst (exampleUndo self1) in
  r self1 = 1 /\ r self2 = r self /\ geomConverters self2 = ∅.
Proof.
  intros opts self self1 self2.
  split; [reflexivity|].
  destruct (perform_undo_round_trip exampleConvert examplePlot exampleAddEdge
              exampleScale exampleRemoveEdge exampleApplyState false
              self self1 self2) as (Hr & Hreg & _).
  - reflexivity.
  - vm_compute. reflexivity.
  - vm_compute. reflexivity.
  - auto.
Defined.



Lemma perform_failure_stays_registered_witness :
  let opts := exampleOptions "DIF3D-FD" thirdPeriodic (Some true) None true in
  let self := exampleExecuter opts in
  exists self1 : Executer nat,
    _performGeometryTransformations exampleConvert examplePlot
      exampleAddEdgeFails false self
    = (self1, Raise (ExternalError "addEdgeAssemblies"))
    /\ geomConverters self1 !! "axial" = Some (UniformMeshConverter 0 1)
    /\ r self1 = 0
    /\ forall makePlots : bool,
         _performGeometryTransformations exampleConvert examplePlot
           exampleAddEdgeFails makePlots self1
         = (self1, Raise RuntimeError).
Proof.
  intros opts self.
  apply (perform_failure_stays_registered exampleConvert examplePlot
           exampleAddEdgeFails self 0 (ExternalError "addEdgeAssemblies")).
  - reflexivity.
  - reflexivity.
  - reflexivity.
  - right. split; reflexivity.
Defined.

Lemma undo_reverse_order_witness :
  let opts := exampleOptions "DIF3D-FD" thirdPeriodic (Some true) None true in
  let self := transformedExecuter opts in
  exists self2 : Executer nat,
    _undoGeometryTransformations exampleScale10 exampleRemoveEdge100
      exampleApplyState self = (self2, Ok tt)
    /\ reactors self2 0 = 111
    /\ reactors self2 1 = 111
    /\ r self2 = 0
    /\ geomConverters self2 = ∅.
Proof.
  intros opts self.
  apply (undo_reverse_order exampleScale10 exampleRemoveEdge100
           exampleApplyState self 0 1 11 111 111).
  - reflexivity.
  - reflexivity.
  - reflexivity.
  - discriminate.
  - reflexivity.
  - reflexivity.
  - reflexivity.
  - reflexivity.
Defined.

(** ** [computeDpaRate], continued *)

(** X6: [computeDpaRate] never returns a negative rate, in binary64 and
    in exact arithmetic: a value it returns is not below zero. *)
Theorem computeDpaRate_never_negative :
  (forall (mgFlux dpaXs : list float) (rate : float),
      snd (computeDpaRate mgFlux dpaXs) = Ok rate ->
      PrimFloat.ltb rate 0 = false)
  /\ (forall (mgFlux dpaXs : list Qc) (rate : Qc),
      snd (computeDpaRate mgFlux dpaXs) = Ok rate -> (0 <= rate)%Qc).
Proof.
  split; intros mgFlux dpaXs rate; unfold computeDpaRate, checkDpaPerSecond;
    destruct (negb (length mgFlux =? length dpaXs)); cbn [snd].
  - intros [= <-]. reflexivity.
  - destruct (nltb _ zero) eqn:Hneg.
    + destruct (nltb _ NEGATIVE_DPA_LIMIT); cbn [snd]; [discriminate|].
      intros [= <-]. reflexivity.
    + cbn [snd]. intros [= <-]. exact Hneg.
  - intros [= <-]. discriminate.
  - destruct (nltb _ zero) eqn:Hneg.
    + destruct (nltb _ NEGATIVE_DPA_LIMIT); cbn [snd]; [discriminate|].
      intros [= <-]. discriminate.
    + cbn [snd]. intros [= <-]. apply Qc_nltb_false, Hneg.
Qed.

Lemma computeDpaRate_never_negative_witness :
  exists rate : Qc,
    snd (computeDpaRate [Qc_of_frac (-3) 1] [Qc_of_frac 1 1]) = Ok rate
    /\ (0 <= rate)%Qc.
Proof.
  eexists. split; [reflexivity|].
  apply (proj2 computeDpaRate_never_negative
           [Qc_of_frac (-3) 1] [Qc_of_frac 1 1]).
  reflexivity.
Defined.

(** ** [calcReactionRates], continued *)

Section CalcReactionRatesMore.
Context {F : Type} `{Num F}.

Lemma nuclideLoop_setParams (obj : RxObject F) (keff : F) (lib : XSLibrary F)
    (items : list (string * F)) (rate params : gmap string F) :
  nuclideLoop (setParams obj params) keff lib items rate
  = nuclideLoop obj keff lib items rate.
Proof.
  revert rate. induction items as [|[nucName numberDensity] items IH];
    intros rate; cbn [nuclideLoop]; [reflexivity|].
  cbn [nuclideStep getMicroSuffix getMgFlux setParams].
  destruct (neqb numberDensity zero); cbn [rbind]; [apply IH|].
  destruct (lib nucName _); cbn [rbind]; [|reflexivity].
  destruct (labelLoop _ _ _ _ _ _); cbn [rbind]; [apply IH|reflexivity].
Qed.

Lemma writeRates_lookup_other (rate params : gmap string F) (k : string) :
  k ∉ RX_PARAM_NAMES -> writeRates rate params !! k = params !! k.
Proof.
  intros Hk. unfold writeRates, RX_PARAM_NAMES in *. cbn [foldl].
  rewrite !lookup_insert_ne; [reflexivity|..]; intros <-; apply Hk;
    repeat first [left | right].
Qed.

(** X7: the rates are derived afresh: the seven parameters that a
    returning call assigns do not depend on the parameters the object had
    before the call, and the call returns for any of them. *)
Theorem calcReactionRates_fresh (keff : F) (lib : XSLibrary F)
    (obj obj1 : RxObject F) (params : gmap string F) :
  calcReactionRates keff lib obj = (obj1, Ok tt) ->
  exists obj2 : RxObject F,
    calcReactionRates keff lib (setParams obj params) = (obj2, Ok tt)
    /\ forall k : string, k ∈ reactionRateParams ->
         p obj2 !! k = p obj1 !! k.
Proof.
  unfold calcReactionRates. rewrite nuclideLoop_setParams.
  cbn [getNumberDensities setParams fuelAreaFrac p].
  destruct (nuclideLoop obj keff lib _ zeroRates) as [rate|e]; [|discriminate].
  destruct (pydiv _ _) as [fisDens|e]; [|discriminate].
  intros [= <-]. eexists. split; [reflexivity|].
  intros k Hk. cbn [p setParams].
  unfold reactionRateParams, RX_PARAM_NAMES in Hk.
  rewrite !lookup_insert.
  repeat case_decide; try reflexivity.
  rewrite !writeRates_lookup; [reflexivity|..];
    unfold RX_PARAM_NAMES; cbn [app] in Hk;
    repeat (apply elem_of_cons in Hk; destruct Hk as [->|Hk]);
    try congruence; try (repeat first [left | right]);
    apply elem_of_nil in Hk; destruct Hk.
Qed.

Lemma nuclideLoop_skips_zero (obj : RxObject F) (keff : F) (lib : XSLibrary F)
    (items items' : list (string * F)) (rate : gmap string F) :
  nuclideLoop (setNumberDensities items' obj) keff lib (filter hasDensity items) rate
  = nuclideLoop obj keff lib items rate.
Proof.
  revert rate. induction items as [|[nucName numberDensity] items IH];
    intros rate; [reflexivity|].
  cbn [nuclideLoop nuclideStep].
  destruct (neqb numberDensity zero) eqn:Hzero; cbn [rbind].
  - rewrite filter_cons_False; [apply IH|].
    unfold hasDensity. cbn [snd]. rewrite Hzero. intros [].
  - rewrite filter_cons_True
      by (unfold hasDensity; cbn [snd]; rewrite Hzero; exact I).
    cbn [nuclideLoop nuclideStep getMicroSuffix getMgFlux setNumberDensities].
    rewrite Hzero.
    destruct (lib nucName _); cbn [rbind]; [|reflexivity].
    destruct (labelLoop _ _ _ _ _ _); cbn [rbind]; [apply IH|reflexivity].
Qed.

(** X8: nuclides of zero number density are skipped before the library
    is asked for them: dropping them from the number densities changes
    neither the outcome nor the parameters assigned. *)
Theorem calcReactionRates_skips_zero_density (keff : F) (lib : XSLibrary F)
    (obj : RxObject F) :
  let obj' :=
    setNumberDensities (filter hasDensity (getNumberDensities obj)) obj in
  snd (calcReactionRates keff lib obj') = snd (calcReactionRates keff lib obj)
  /\ p (fst (calcReactionRates keff lib obj'))
     = p (fst (calcReactionRates keff lib obj)).
Proof.
  intros obj'. unfold calcReactionRates, obj'.
  cbn [getNumberDensities setNumberDensities].
  rewrite nuclideLoop_skips_zero.
  destruct (nuclideLoop obj keff lib _ zeroRates) as [rate|e];
    [|split; reflexivity].
  cbn [setParams fuelAreaFrac p setNumberDensities].
  destruct (pydiv _ _); split; reflexivity.
Qed.

End CalcReactionRatesMore.

Lemma calcReactionRates_fresh_witness :
  exists obj2 : RxObject Qc,
    calcReactionRates (Qc_of_frac 1 1) exampleLibrary
      (setParams exampleObject (<["rateAbs" := Qc_of_frac 99 1]> ∅))
    = (obj2, Ok tt)
    /\ forall k : string, k ∈ reactionRateParams ->
         p obj2 !! k
         = p (fst (calcReactionRates (Qc_of_frac 1 1) exampleLibrary
                     exampleObject)) !! k.
Proof.
  apply (calcReactionRates_fresh (Qc_of_frac 1 1) exampleLibrary exampleObject).
  vm_compute. reflexivity.
Defined.




(** ** [checkEnergyBalance], continued *)

(** X10: the tolerance of the energy balance is relative only. When the
    specified power is zero, the check passes exactly when the generated
    power is zero too: any other generated power, however small, raises
    [ValueError]. Exact arithmetic. *)
Theorem checkEnergyBalance_zero_specified
    (setPowerIfNecessary : Core Qc -> Core Qc) (core : Core Qc) :
  powerMultiplier (setPowerIfNecessary core) <> 0%Qc ->
  core_power (setPowerIfNecessary core) = 0%Qc ->
  (calcTotalPower core = 0%Qc ->
   snd (checkEnergyBalance setPowerIfNecessary core) = Ok tt)
  /\ (calcTotalPower core <> 0%Qc ->
      snd (checkEnergyBalance setPowerIfNecessary core) = Raise ValueError).
Proof.
  intros Hmult Hpower. unfold checkEnergyBalance, pydiv.
  cbn [neqb ndiv zero WATTS_PER_MW Qc_num].
  rewrite bool_decide_eq_false_2 by exact Hmult. rewrite Hpower.
  replace (0 / Qc_of_frac 1000000 1 / powerMultiplier (setPowerIfNecessary core))%Qc
    with 0%Qc by (unfold Qcdiv; rewrite !Qcmult_0_l; reflexivity).
  set (generated := (calcTotalPower core / Qc_of_frac 1000000 1)%Qc).
  assert (Hgen : generated = 0%Qc <-> calcTotalPower core = 0%Qc).
  { unfold generated, Qcdiv. split; intros Hz.
    - apply Qcmult_integral in Hz. destruct Hz as [Hz|Hz]; [exact Hz|].
      exfalso. revert Hz. vm_compute. discriminate.
    - rewrite Hz. apply Qcmult_0_l. }
  split; intros Htotal.
  - apply Hgen in Htotal. rewrite Htotal. reflexivity.
  - assert (Hne : generated <> 0%Qc) by (intros Hz; apply Htotal, Hgen, Hz).
    assert (Hopen : isclose generated 0%Qc ENERGY_BALANCE_REL_TOL = false).
    { apply not_true_is_false. intros Hclose.
      apply isclose_relativeDifference in Hclose.
      unfold relativeDifference in Hclose.
      replace (generated - 0)%Qc with generated in Hclose by ring.
      assert (Habs : (0 < Qcabs generated)%Qc).
      { apply Qcnot_le_lt. intros Hle. apply Hne, Qcabs_zero_inv, Hle. }
      assert (Hmax : Qcmax (Qcabs generated) (Qcabs 0) = Qcabs generated).
      { unfold Qcmax. destruct (Qclt_le_dec _ _) as [Hlt|_]; [|reflexivity].
        exfalso. rewrite (Qcabs_pos 0) in Hlt by discriminate.
        exact (Qclt_not_le _ _ Habs (Qclt_le_weak _ _ Hlt)). }
      rewrite Hmax in Hclose.
      replace (Qcabs generated / Qcabs generated)%Qc with 1%Qc in Hclose
        by (field; intros Hz; rewrite Hz in Habs; discriminate Habs).
      apply (Qcle_not_lt _ _ Hclose). reflexivity. }
    rewrite Hopen. reflexivity.
Qed.

Lemma checkEnergyBalance_zero_specified_witness :
  snd (checkEnergyBalance id
         (exampleCore (Qc_of_frac 1 1000000) (Qc_of_frac 0 1)
            (Qc_of_frac 0 1) (Qc_of_frac 1 1)))
  = Raise ValueError.
Proof.
  apply (checkEnergyBalance_zero_specified id).
  - discriminate.
  - reflexivity.
  - discriminate.
Defined.

(** ** [updateFluenceAndDpa], continued *)

Section Within.
Context {S : Type} (R : S -> S -> Prop).
Hypothesis R_refl : forall s, R s s.
Hypothesis R_trans : forall s1 s2 s3, R s1 s2 -> R s2 s3 -> R s1 s3.

Lemma within_bind {A B : Type} (c : action S A) (k : A -> action S B) (s : S) :
  within R c s ->
  (forall a s1, c s = (s1, Ok a) -> within R (k a) s1) ->
  within R (bind c k) s.
Proof using R_trans.
  intros Hc Hk s' res. unfold bind.
  destruct (c s) as [s1 [a|e]] eqn:Hcs.
  - intros Hka. eapply R_trans; [eapply Hc; exact Hcs|].
    eapply Hk; [reflexivity | exact Hka].
  - intros [= <- <-]. eapply Hc; exact Hcs.
Qed.

Lemma within_pure {A : Type} (a : A) (s : S) : within R (pure a) s.
Proof using R_refl. intros s' res [= <- <-]. apply R_refl. Qed.

Lemma within_raise {A : Type} (e : exn) (s : S) : within R (raise (A := A) e) s.
Proof using R_refl. intros s' res [= <- <-]. apply R_refl. Qed.

Lemma within_liftResult {A : Type} (c : result A) (s : S) :
  within R (liftResult c) s.
Proof using R_refl. intros s' res [= <- <-]. apply R_refl. Qed.

Lemma within_getState (s : S) : within R getState s.
Proof using R_refl. intros s' res [= <- <-]. apply R_refl. Qed.

Lemma within_modify (f : S -> S) (s : S) : R s (f s) -> within R (modify f) s.
Proof. intros Hf s' res [= <- <-]. exact Hf. Qed.

End Within.

Section DoseFrame.
Context {F : Type} `{Num F}.
Variable burnupPeakingFactor : F.
Variable dpaPerFluence : option F.
Variable updateMaxDpaParams : DoseReactor F -> result (gmap string F).
Variable updateCycleDoseParams : DoseReactor F -> result (gmap string F).
Variable updateLoadpadDose : DoseReactor F -> result (gmap string F).
Variable stepTimeInSeconds : F.

Lemma touchesOnly_refl (bs : list BlockId) (rx : DoseReactor F) :
  touchesOnly bs rx rx.
Proof. unfold touchesOnly. auto. Qed.

Lemma touchesOnly_trans (bs : list BlockId) (rx1 rx2 rx3 : DoseReactor F) :
  touchesOnly bs rx1 rx2 -> touchesOnly bs rx2 rx3 -> touchesOnly bs rx1 rx3.
Proof.
  unfold touchesOnly. intros (H1 & H2 & H3 & H4 & H5) (K1 & K2 & K3 & K4 & K5).
  split; [|split; [|split; [|split]]].
  - intros b Hb. rewrite K1, H1 by exact Hb. reflexivity.
  - intros b. rewrite K2, H2. reflexivity.
  - congruence.
  - congruence.
  - congruence.
Qed.

Lemma touchesOnly_mono (bs bs' : list BlockId) (rx rx' : DoseReactor F) :
  (forall b, b ∈ bs -> b ∈ bs') ->
  touchesOnly bs rx rx' -> touchesOnly bs' rx rx'.
Proof.
  unfold touchesOnly. intros Hsub (H1 & H2 & H3 & H4 & H5).
  split; [|split; [|split; [|split]]]; try assumption.
  intros b Hb. apply H1. intros Hin. apply Hb, Hsub, Hin.
Qed.

Lemma keepsAccumulated_refl (bs : list BlockId) (rx : DoseReactor F) :
  keepsAccumulated bs rx rx.
Proof. split; [apply touchesOnly_refl | reflexivity]. Qed.

Lemma keepsAccumulated_trans (bs : list BlockId) (rx1 rx2 rx3 : DoseReactor F) :
  keepsAccumulated bs rx1 rx2 -> keepsAccumulated bs rx2 rx3 ->
  keepsAccumulated bs rx1 rx3.
Proof.
  intros [H1 H2] [K1 K2]. split; [eapply touchesOnly_trans; eassumption|].
  intros b. rewrite K2, H2. reflexivity.
Qed.

(** An assignment to dose parameters other than the accumulated ones *)
Lemma modifyDose_keepsAccumulated (b : BlockId)
    (f : BlockDoseParams F -> BlockDoseParams F) (rx : DoseReactor F) :
  (forall d, accumulated (f d) = accumulated d) ->
  within (keepsAccumulated [b]) (modifyDose b f) rx.
Proof.
  intros Hf. apply within_modify. unfold keepsAccumulated, touchesOnly.
  cbn [blocks setBlocks core_getBlocks daysSinceLastMove core_p].
  split; [split; [|split; [|split; [|split]]]|]; try reflexivity.
  - intros b' Hb'. rewrite fn_lookup_insert_ne; [reflexivity|].
    intros ->. apply Hb'. left.
  - intros b'. destruct (decide (b = b')) as [<-|Hne].
    + rewrite fn_lookup_insert. reflexivity.
    + rewrite fn_lookup_insert_ne by exact Hne. reflexivity.
  - intros b'. destruct (decide (b = b')) as [<-|Hne].
    + rewrite fn_lookup_insert. cbn [doseParams setDose]. apply Hf.
    + rewrite fn_lookup_insert_ne by exact Hne. reflexivity.
Qed.

Lemma logRecordOf_keepsAccumulated (bs : list BlockId) (rec : logRecord)
    (rx : DoseReactor F) :
  keepsAccumulated bs rx (logRecordOf rec rx).
Proof. split; [unfold touchesOnly; cbn; auto | reflexivity]. Qed.

Ltac keeps :=
  repeat first
    [ apply within_pure; apply keepsAccumulated_refl
    | apply within_raise; apply keepsAccumulated_refl
    | apply within_liftResult; apply keepsAccumulated_refl
    | apply within_getState; apply keepsAccumulated_refl
    | apply within_modify; apply logRecordOf_keepsAccumulated
    | apply modifyDose_keepsAccumulated; intros d; reflexivity
    | apply within_bind;
      [apply keepsAccumulated_trans | | intros ? ? ?]
    | case_match ].

Lemma updatePointDpa_keeps
    (getRate : BlockFluxParams F -> option (list F))
    (getDpa : BlockDoseParams F -> option (list F))
    (setDpa : option (list F) -> BlockDoseParams F -> BlockDoseParams F)
    (b : BlockId) (rx : DoseReactor F) :
  (forall v d, accumulated (setDpa v d) = accumulated d) ->
  within (keepsAccumulated [b])
    (updatePointDpa getRate getDpa setDpa stepTimeInSeconds b) rx.
Proof.
  intros Hset. unfold updatePointDpa.
  repeat first
    [ apply modifyDose_keepsAccumulated; intros d; apply Hset
    | progress keeps ].
Qed.

Lemma updatePercentBuPeak_keeps (b : BlockId) (rx : DoseReactor F) :
  within (keepsAccumulated [b])
    (updatePercentBuPeak burnupPeakingFactor stepTimeInSeconds b) rx.
Proof. unfold updatePercentBuPeak. keeps. Qed.

(** One turn of the loop: only the block [b] is touched, and its
    accumulated fields are those of [accumulateDose], whether the turn
    returns or raises. *)
Lemma updateBlock_accumulates (b : BlockId) (rx rx' : DoseReactor F)
    (res : result unit) :
  updateBlock burnupPeakingFactor dpaPerFluence stepTimeInSeconds b rx
  = (rx', res) ->
  touchesOnly [b] rx rx'
  /\ accumulated (doseParams (blocks rx' b))
     = accumulated (accumulateDose stepTimeInSeconds (fluxParams (blocks rx b))
                      (doseParams (blocks rx b))).
Proof.
  unfold updateBlock. unfold bind at 1. unfold getState at 1.
  unfold bind at 1. unfold modifyDose at 1. unfold modify at 1.
  set (rx1 := setBlocks _ rx).
  intros Hrest.
  assert (Hkeeps : keepsAccumulated [b] rx1 rx').
  { revert Hrest. generalize rx' res. change (within (keepsAccumulated [b])
      (let* _ := updatePointDpa pointsCornerDpaRate pointsCornerDpa
                   setPointsCornerDpa stepTimeInSeconds b in
       let* _ := updatePointDpa pointsEdgeDpaRate pointsEdgeDpa
                   setPointsEdgeDpa stepTimeInSeconds b in
       let* _ := match dpaPerFluence with
                 | Some factor =>
                     if truthy factor
                     then modifyDose b (fun d =>
                            setDpaPeakFromFluence
                              (nmul (fastFluencePeak d) factor) d)
                     else pure tt
                 | None => pure tt
                 end in
       updatePercentBuPeak burnupPeakingFactor stepTimeInSeconds b) rx1).
    apply within_bind; [apply keepsAccumulated_trans | |intros ? ? ?].
    { apply updatePointDpa_keeps. reflexivity. }
    apply within_bind; [apply keepsAccumulated_trans | |intros ? ? ?].
    { apply updatePointDpa_keeps. reflexivity. }
    apply within_bind; [apply keepsAccumulated_trans | |intros ? ? ?].
    { keeps. }
    apply updatePercentBuPeak_keeps. }
  destruct Hkeeps as [(K1 & K2 & K3 & K4 & K5) Kacc].
  split.
  - unfold touchesOnly. split; [|split; [|split; [|split]]]; try assumption.
    + intros b' Hb'. rewrite K1 by exact Hb'. unfold rx1. cbn [blocks setBlocks].
      rewrite fn_lookup_insert_ne; [reflexivity|]. intros ->. apply Hb'. left.
    + intros b'. rewrite K2. unfold rx1. cbn [blocks setBlocks].
      destruct (decide (b = b')) as [<-|Hne].
      * rewrite fn_lookup_insert. reflexivity.
      * rewrite fn_lookup_insert_ne by exact Hne. reflexivity.
  - rewrite Kacc. unfold rx1. cbn [blocks setBlocks].
    rewrite fn_lookup_insert. reflexivity.
Qed.

Local Abbreviation forBlocks' :=
  (forBlocks burnupPeakingFactor dpaPerFluence stepTimeInSeconds).
Local Abbreviation updateFluenceAndDpa' :=
  (updateFluenceAndDpa burnupPeakingFactor dpaPerFluence updateMaxDpaParams
     updateCycleDoseParams updateLoadpadDose stepTimeInSeconds).

(** The loop touches the blocks of its list only, however it ends. *)
Lemma forBlocks_touchesOnly (blockList : list BlockId) (rx : DoseReactor F) :
  within (touchesOnly blockList) (forBlocks' blockList) rx.
Proof.
  revert rx. induction blockList as [|b blockList' IH]; intros rx.
  - apply within_pure. apply touchesOnly_refl.
  - cbn [forBlocks]. apply within_bind.
    + apply touchesOnly_trans.
    + intros rx1 res Hb. apply updateBlock_accumulates in Hb as [Hb _].
      eapply touchesOnly_mono; [|exact Hb].
      intros b' Hb'. apply list_elem_of_singleton in Hb' as ->. left.
    + intros [] rx1 _ rx2 res Hloop. apply IH in Hloop.
      eapply touchesOnly_mono; [|exact Hloop].
      intros b' Hb'. right. exact Hb'.
Qed.

(** When the loop returns over a list without repetition, every block of
    the list has been accumulated once. *)
Lemma forBlocks_accumulates (blockList : list BlockId)
    (rx rx' : DoseReactor F) :
  NoDup blockList ->
  forBlocks' blockList rx = (rx', Ok tt) ->
  forall b : BlockId, b ∈ blockList ->
    accumulated (doseParams (blocks rx' b))
    = accumulated (accumulateDose stepTimeInSeconds (fluxParams (blocks rx b))
                     (doseParams (blocks rx b))).
Proof.
  revert rx. induction blockList as [|b0 blockList' IH]; intros rx Hnodup Hloop b Hb.
  - apply elem_of_nil in Hb as [].
  - apply list.NoDup_cons in Hnodup as [Hfresh Hnodup].
    cbn [forBlocks] in Hloop. unfold bind at 1 in Hloop.
    destruct (updateBlock burnupPeakingFactor dpaPerFluence stepTimeInSeconds
                b0 rx) as [rx1 [[]|e]] eqn:Hfirst; [|discriminate].
    apply updateBlock_accumulates in Hfirst as [(K1 & K2 & _) Hacc].
    destruct (decide (b = b0)) as [->|Hne].
    + apply forBlocks_touchesOnly in Hloop as (L1 & _).
      rewrite L1 by exact Hfresh. exact Hacc.
    + apply elem_of_cons in Hb as [->|Hb]; [contradiction|].
      rewrite (IH rx1 Hnodup Hloop b Hb).
      rewrite K1; [reflexivity|].
      intros Hin. apply list_elem_of_singleton in Hin. contradiction.
Qed.

(** X11: a step of [updateFluenceAndDpa], whether it returns or raises,
    leaves every block outside the effective block list as it was, assigns
    no flux parameter of any block and does not change the blocks the core
    reports. *)
Theorem updateFluenceAndDpa_frame (blockList : option (list BlockId))
    (rx rx' : DoseReactor F) (res : result unit) :
  updateFluenceAndDpa' blockList rx = (rx', res) ->
  (forall b : BlockId, b ∉ effectiveBlockList blockList rx ->
     blocks rx' b = blocks rx b)
  /\ (forall b : BlockId,
        fluxParams (blocks rx' b) = fluxParams (blocks rx b))
  /\ core_getBlocks rx' = core_getBlocks rx.
Proof.
  unfold updateFluenceAndDpa. unfold bind at 1. unfold getState at 1.
  destruct (effectiveBlockList blockList rx) as [|first rest] eqn:Hlist.
  { intros [= <- <-]. auto. }
  set (rx0 := if negb (truthy (fluxPeak (fluxParams (blocks rx first))))
              then logRecordOf warnNoFluxPeak rx else rx).
  assert (Hrx0 : blocks rx0 = blocks rx /\ core_getBlocks rx0 = core_getBlocks rx).
  { unfold rx0. case_match; auto. }
  destruct Hrx0 as [Hblocks Hcore].
  intros Hrun.
  assert (Hrun' :
    (let* _ := forBlocks' (first :: rest) in
     let* _ :=
       modify (fun rx =>
         setDaysSinceLastMove
           (map (fun d => nadd d (ndiv stepTimeInSeconds SECONDS_PER_DAY))
              (daysSinceLastMove rx)) rx) in
     let* _ := coreSummary updateMaxDpaParams in
     let* _ := coreSummary updateCycleDoseParams in
     coreSummary updateLoadpadDose) rx0 = (rx', res)).
  { revert Hrun. unfold rx0, bind at 1.
    destruct (negb (truthy (fluxPeak (fluxParams (blocks rx first)))));
      intros Hrun; exact Hrun. }
  clear Hrun. revert Hrun'. unfold bind at 1.
  destruct (forBlocks' (first :: rest) rx0) as [rx1 res1] eqn:Hloop.
  apply forBlocks_touchesOnly in Hloop as (L1 & L2 & L3 & _).
  assert (Htail : forall rx2,
    blocks rx2 = blocks rx1 /\ core_getBlocks rx2 = core_getBlocks rx1 ->
    (forall b : BlockId, b ∉ first :: rest -> blocks rx2 b = blocks rx b)
    /\ (forall b : BlockId,
          fluxParams (blocks rx2 b) = fluxParams (blocks rx b))
    /\ core_getBlocks rx2 = core_getBlocks rx).
  { intros rx2 [E1 E2]. rewrite E1, E2, L3, Hcore.
    split; [|split; [|reflexivity]].
    - intros b Hb. rewrite L1 by exact Hb. rewrite Hblocks. reflexivity.
    - intros b. rewrite L2, Hblocks. reflexivity. }
  destruct res1 as [[]|e].
  - unfold coreSummary, bind, getState, liftResult, modify.
    intros Hrun. apply Htail.
    repeat case_match; simplify_eq; cbn; auto.
  - intros [= <- <-]. apply Htail. auto.
Qed.

(** X12: when a step of [updateFluenceAndDpa] returns and the effective
    block list has no repetition, every block of the list has been
    accumulated exactly once with its own rates: the DPA of the step is
    rate times step, the totals grew by that, fluence grew by flux times
    step and residence by the step in days; the later assignments of the
    loop body and the other blocks' turns did not disturb these values. *)
Theorem updateFluenceAndDpa_accumulates (blockList : option (list BlockId))
    (rx rx' : DoseReactor F) :
  NoDup (effectiveBlockList blockList rx) ->
  updateFluenceAndDpa' blockList rx = (rx', Ok tt) ->
  forall b : BlockId, b ∈ effectiveBlockList blockList rx ->
    let fp := fluxParams (blocks rx b) in
    let d := doseParams (blocks rx b) in
    let d' := doseParams (blocks rx' b) in
    newDPA d' = nmul (detailedDpaRate fp) stepTimeInSeconds
    /\ newDPAPeak d' = nmul (detailedDpaPeakRate fp) stepTimeInSeconds
    /\ detailedDpa d'
       = nadd (detailedDpa d) (nmul (detailedDpaRate fp) stepTimeInSeconds)
    /\ detailedDpaPeak d'
       = nadd (detailedDpaPeak d)
           (nmul (detailedDpaPeakRate fp) stepTimeInSeconds)
    /\ detailedDpaThisCycle d'
       = nadd (detailedDpaThisCycle d)
           (nmul (detailedDpaRate fp) stepTimeInSeconds)
    /\ fluence d' = nadd (fluence d) (nmul (flux fp) stepTimeInSeconds)
    /\ fastFluence d'
       = nadd (fastFluence d)
           (nmul (nmul (flux fp) stepTimeInSeconds) (fastFluxFr fp))
    /\ fastFluencePeak d'
       = nadd (fastFluencePeak d)
           (nmul (nmul (fluxPeak fp) stepTimeInSeconds) (fastFluxFr fp))
    /\ residence d'
       = nadd (residence d) (ndiv stepTimeInSeconds SECONDS_PER_DAY).
Proof.
  intros Hnodup Hrun b Hb.
  assert (Hacc : accumulated (doseParams (blocks rx' b))
    = accumulated (accumulateDose stepTimeInSeconds (fluxParams (blocks rx b))
                     (doseParams (blocks rx b)))).
  { revert Hrun. unfold updateFluenceAndDpa. unfold bind at 1.
    unfold getState at 1.
    destruct (effectiveBlockList blockList rx) as [|first rest] eqn:Hlist.
    { apply elem_of_nil in Hb as []. }
    set (rx0 := if negb (truthy (fluxPeak (fluxParams (blocks rx first))))
                then logRecordOf warnNoFluxPeak rx else rx).
    assert (Hblocks : blocks rx0 = blocks rx).
    { unfold rx0. case_match; reflexivity. }
    intros Hrun.
    assert (Hrun' :
      (let* _ := forBlocks' (first :: rest) in
       let* _ :=
         modify (fun rx =>
           setDaysSinceLastMove
             (map (fun d => nadd d (ndiv stepTimeInSeconds SECONDS_PER_DAY))
                (daysSinceLastMove rx)) rx) in
       let* _ := coreSummary updateMaxDpaParams in
       let* _ := coreSummary updateCycleDoseParams in
       coreSummary updateLoadpadDose) rx0 = (rx', Ok tt)).
    { revert Hrun. unfold rx0, bind at 1.
    destruct (negb (truthy (fluxPeak (fluxParams (blocks rx first)))));
      intros Hrun; exact Hrun. }
    clear Hrun. revert Hrun'. unfold bind at 1.
    destruct (forBlocks' (first :: rest) rx0) as [rx1 [[]|e]] eqn:Hloop;
      [|discriminate].
    pose proof (forBlocks_accumulates _ _ _ Hnodup Hloop b Hb) as Hacc.
    rewrite Hblocks in Hacc. rewrite <- Hacc.
    unfold coreSummary, bind, getState, liftResult, modify.
    intros Hrun.
    assert (Hsame : blocks rx' = blocks rx1).
    { repeat case_match; simplify_eq; cbn; auto. }
    rewrite Hsame. reflexivity. }
  unfold accumulated, accumulateDose in Hacc. cbn in Hacc.
  injection Hacc as E1 E2 E3 E4 E5 E6 E7 E8 E9.
  cbn zeta. auto 10.
Qed.

End DoseFrame.

Lemma updateFluenceAndDpa_frame_witness :
  let rx := exampleDoseReactor [0; 1] in
  let stepTimeInSeconds := Qc_of_frac 3 1 in
  let rx' := fst (exampleUpdateFluenceAndDpa stepTimeInSeconds (Some [0]) rx) in
  detailedDpa (doseParams (blocks rx' 0)) = Qc_of_frac 11 1
  /\ blocks rx' 1 = blocks rx 1
  /\ fluxParams (blocks rx' 0) = fluxParams (blocks rx 0)
  /\ core_getBlocks rx' = [0; 1].
Proof.
  intros rx stepTimeInSeconds rx'.
  destruct (updateFluenceAndDpa_frame (Qc_of_frac 0 1) None exampleSummary
              exampleSummary exampleSummary stepTimeInSeconds (Some [0])
              rx rx' (Ok tt)) as (Hothers & Hflux & Hcore).
  - vm_compute. reflexivity.
  - split; [apply Qc_is_canon; vm_compute; reflexivity|].
    split; [|split].
    + apply Hothers. cbn. intros Hin.
      apply list_elem_of_singleton in Hin. discriminate.
    + apply Hflux.
    + exact Hcore.
Defined.

Lemma updateFluenceAndDpa_accumulates_witness :
  let rx := exampleDoseReactor [0; 1] in
  let stepTimeInSeconds := Qc_of_frac 3 1 in
  let rx' := fst (exampleUpdateFluenceAndDpa stepTimeInSeconds None rx) in
  NoDup (effectiveBlockList None rx)
  /\ newDPA (doseParams (blocks rx' 1)) = (Qc_of_frac 2 1 * Qc_of_frac 3 1)%Qc
  /\ detailedDpa (doseParams (blocks rx' 1))
     = (Qc_of_frac 5 1 + Qc_of_frac 2 1 * Qc_of_frac 3 1)%Qc
  /\ fluence (doseParams (blocks rx' 1))
     = (Qc_of_frac 0 1 + Qc_of_frac (-10) 1 * Qc_of_frac 3 1)%Qc.
Proof.
  intros rx stepTimeInSeconds rx'.
  assert (Hnodup : NoDup (effectiveBlockList None rx)).
  { cbn. apply list.NoDup_cons. split.
    - intros Hin. apply list_elem_of_singleton in Hin. discriminate.
    - apply NoDup_singleton. }
  split; [exact Hnodup|].
  destruct (updateFluenceAndDpa_accumulates (Qc_of_frac 0 1) None exampleSummary
              exampleSummary exampleSummary stepTimeInSeconds None
              rx rx' Hnodup) with (b := 1)
    as (Hnew & _ & Hdpa & _ & _ & Hfluence & _).
  - vm_compute. reflexivity.
  - cbn. right. left.
  - split; [exact Hnew|]. split; [exact Hdpa|exact Hfluence].
Defined.
